(** * BenchExec table generator: LaTeX statistics export

    A shallow embedding of [benchexec/tablegenerator/statisticstex.py] and a
    verification of its identifier construction, collision handling and
    traversal order.

    Conventions of the embedding.
    - A Python [str] is a [string] of 8-bit characters.  The module only
      classifies characters as ASCII letters, as the digits 1-9, or as
      "anything else", so every other character behaves as a delimiter.
    - A generator is the list of the values it yields; a yielded
      [LatexCommand] is the snapshot the consumer sees at that moment
      (the driver serialises each command before it resumes the generator).
    - [out.write] appends one chunk to the list of written chunks;
      [logging.warning] appends one message to the list of warnings.
    - A dictionary is a [gmap]; [Counter] and [defaultdict(int)] read a
      missing key as 0. *)

From Stdlib Require Import ZArith NArith Ascii String Lia.
From stdpp Require Import base option list strings gmap.

(** ** Python text primitives *)

Module Py.

Definition is_ascii_letter (c : ascii) : bool :=
  let n := N_of_ascii c in
  (((65 <=? n) && (n <=? 90)) || ((97 <=? n) && (n <=? 122)))%N.

Definition is_ascii_upper (c : ascii) : bool :=
  let n := N_of_ascii c in ((65 <=? n) && (n <=? 90))%N.

Definition is_digit_1_9 (c : ascii) : bool :=
  let n := N_of_ascii c in ((49 <=? n) && (n <=? 57))%N.

(** [c.upper()] on the ASCII range. *)
Definition upper (c : ascii) : ascii :=
  let n := N_of_ascii c in
  if ((97 <=? n) && (n <=? 122))%N then ascii_of_N (n - 32) else c.

(** [int(s)] for a string of decimal digits. *)
Fixpoint int_from (acc : N) (s : string) : N :=
  match s with
  | EmptyString => acc
  | String c s' => int_from (acc * 10 + (N_of_ascii c - 48)) s'
  end.

Definition int (s : string) : N := int_from 0 s.

(** [sep.join(words)] with the empty separator. *)
Definition join (words : list string) : string :=
  foldr String.append EmptyString words.

(** [s.split(sep)] for a one-character separator: every occurrence of the
    separator ends a piece, so a string with k separators has k+1 pieces. *)
Fixpoint split_on (is_sep : ascii → bool) (s : string) : list string :=
  match s with
  | EmptyString => [EmptyString]
  | String c s' =>
      if is_sep c then EmptyString :: split_on is_sep s'
      else match split_on is_sep s' with
           | w :: ws => String c w :: ws
           | [] => [String c EmptyString]
           end
  end.

(** [bool(s)] for a value that is [None] or a string. *)
Definition truthy (o : option string) : bool :=
  match o with
  | Some (String _ _) => true
  | _ => false
  end.

Definition newline : string := String "010"%char EmptyString.

(** [collections.Counter(items)]: one pass over the items, each adding one
    to its own count. *)
Definition Counter `{Countable K} (items : list K) : gmap K nat :=
  foldl (λ counts k, <[k := S (default 0 (counts !! k))]> counts) ∅ items.

(** [counts[k]] for a [Counter] or a [defaultdict(int)]. *)
Definition count_of `{Countable K} (counts : gmap K nat) (k : K) : nat :=
  default 0 (counts !! k).

(** [counts[k] += 1] *)
Definition increment `{Countable K} (counts : gmap K nat) (k : K) : gmap K nat :=
  <[k := count_of counts k + 1]> counts.

End Py.

(** ** The helpers of [benchexec.tablegenerator.util] *)

Module util.

(** Modelled from the spec: [util.cap_first_letter] is not part of the
    sources at hand; the specification describes it as the capability that
    capitalises the first letter of a word and returns the word. *)
Definition cap_first_letter (word : string) : string :=
  match word with
  | EmptyString => EmptyString
  | String c rest => String (Py.upper c) rest
  end.

(** Modelled from the spec: the numerals of [util.number_to_roman_string],
    which is not part of the sources at hand, from the largest to the
    smallest. *)
Definition ROMAN_NUMERALS : list (string * N) :=
  [ ("M", 1000); ("CM", 900); ("D", 500); ("CD", 400); ("C", 100);
    ("XC", 90); ("L", 50); ("XL", 40); ("X", 10); ("IX", 9); ("V", 5);
    ("IV", 4); ("I", 1) ]%N.

(** Modelled from the spec: the loop of [util.number_to_roman_string] over
    the numerals, each taken as often as it fits into what is left of the
    number. *)
Fixpoint roman_from (table : list (string * N)) (number : N) : string :=
  match table with
  | [] => EmptyString
  | (numeral, value) :: table' =>
      N.iter (number / value) (String.append numeral) EmptyString
      +:+ roman_from table' (number mod value)
  end.

(** Modelled from the spec: [util.number_to_roman_string] is not part of the
    sources at hand; the specification describes it as the capability that
    spells a positive integer as a Roman numeral.  The spelling is the
    usual one: the numerals from M down to I, each taken as often as it
    fits. *)
Definition number_to_roman_string (number : N) : string :=
  roman_from ROMAN_NUMERALS number.

End util.

(** ** Input data

    The collaborators of the generator, with the attributes it reads. *)

(** A statistic's payload.  The generator only tests it against [None] and
    hands it to [Column.format_value]. *)
Inductive PyValue :=
  | PyInt (n : Z)
  | PyDecimal (coefficient exponent : Z)
  | PyStr (s : string).

(** [StatValue.__dict__.items()]: kind and optional value, in field order. *)
Definition StatValue := list (string * option PyValue).

(** [ColumnStatistics.__dict__.items()]: statistic name and optional
    [StatValue], in field order. *)
Definition ColumnStatistics := list (string * option StatValue).

Module Column.
Record t := {
  title : string;
  display_title : option string;
  unit : option string;
  (** [format_value(value, format_target)]; the result may be [None]. *)
  format_value : PyValue → string → option string;
}.
End Column.

Module RunSet.
Record t := {
  (** [id(run_set)], the identity of the object *)
  id : nat;
  (** [attributes["benchmarkname"]] and [attributes["niceName"]] *)
  benchmarkname : string;
  niceName : string;
  columns : list Column.t;
}.
End RunSet.

(** ** [LatexCommand] *)

Module LatexCommand.

Record t := {
  benchmark_name : string;
  runset_name : string;
  column_title : string;
  column_category : string;
  column_subcategory : string;
  stat_type : string;
  value : option string;
}.

(** The part names [set_command_part] accepts. *)
Inductive part_name :=
  | part_benchmark_name
  | part_runset_name
  | part_column_title
  | part_column_category
  | part_column_subcategory
  | part_stat_type.

(** The longest prefix of digits 1-9 and what follows it. *)
Fixpoint span_1_9 (s : string) : string * string :=
  match s with
  | EmptyString => (EmptyString, EmptyString)
  | String c s' =>
      if Py.is_digit_1_9 c
      then let '(digits, rest) := span_1_9 s' in (String c digits, rest)
      else (EmptyString, s)
  end.

(** [re.sub("^[1-9]+$", lambda match: util.number_to_roman_string(match.group()), name)].
    The pattern matches at the start only; [$] matches at the end of the
    string and also just before a newline that ends the string, and the
    match covers the digits alone. *)
Definition sub_roman (name : string) : string :=
  let '(digits, rest) := span_1_9 name in
  if bool_decide (digits ≠ EmptyString ∧ (rest = EmptyString ∨ rest = Py.newline))
  then util.number_to_roman_string (Py.int digits) +:+ rest
  else name.

(** [re.split("[^a-zA-Z]", name)] *)
Definition split_non_letters (name : string) : list string :=
  Py.split_on (λ c, negb (Py.is_ascii_letter c)) name.

Definition format_command_part (name : string) : string :=
  let name := sub_roman name in
  let name := split_non_letters name in
  Py.join (util.cap_first_letter <$> name).

(** [LatexCommand(benchmark_name, runset_name)] *)
Definition init (benchmark_name runset_name : string) : t :=
  {| benchmark_name := format_command_part benchmark_name;
     runset_name := format_command_part runset_name;
     column_title := EmptyString;
     column_category := EmptyString;
     column_subcategory := EmptyString;
     stat_type := EmptyString;
     value := None |}.

Definition set_command_part (self : t) (part : part_name) (part_value : string) : t :=
  let v := format_command_part part_value in
  match part with
  | part_benchmark_name =>
      {| benchmark_name := v; runset_name := runset_name self;
         column_title := column_title self; column_category := column_category self;
         column_subcategory := column_subcategory self; stat_type := stat_type self;
         value := value self |}
  | part_runset_name =>
      {| benchmark_name := benchmark_name self; runset_name := v;
         column_title := column_title self; column_category := column_category self;
         column_subcategory := column_subcategory self; stat_type := stat_type self;
         value := value self |}
  | part_column_title =>
      {| benchmark_name := benchmark_name self; runset_name := runset_name self;
         column_title := v; column_category := column_category self;
         column_subcategory := column_subcategory self; stat_type := stat_type self;
         value := value self |}
  | part_column_category =>
      {| benchmark_name := benchmark_name self; runset_name := runset_name self;
         column_title := column_title self; column_category := v;
         column_subcategory := column_subcategory self; stat_type := stat_type self;
         value := value self |}
  | part_column_subcategory =>
      {| benchmark_name := benchmark_name self; runset_name := runset_name self;
         column_title := column_title self; column_category := column_category self;
         column_subcategory := v; stat_type := stat_type self;
         value := value self |}
  | part_stat_type =>
      {| benchmark_name := benchmark_name self; runset_name := runset_name self;
         column_title := column_title self; column_category := column_category self;
         column_subcategory := column_subcategory self; stat_type := v;
         value := value self |}
  end.

(** [set_command_value]: [None] is stored as the empty string. *)
Definition set_command_value (self : t) (new_value : option string) : t :=
  {| benchmark_name := benchmark_name self; runset_name := runset_name self;
     column_title := column_title self; column_category := column_category self;
     column_subcategory := column_subcategory self; stat_type := stat_type self;
     value := Some (default EmptyString new_value) |}.

Definition brace (s : string) : string := "{" +:+ s +:+ "}".

(** [__repr__] *)
Definition repr (self : t) : string :=
  "\StoreBenchExecResult" +:+ brace (benchmark_name self)
  +:+ brace (runset_name self) +:+ brace (column_title self)
  +:+ brace (column_category self) +:+ brace (column_subcategory self)
  +:+ brace (stat_type self).

Definition _get_command_formatted (self : t) (v : option string) : string :=
  let v := if Py.truthy v then default EmptyString v else EmptyString in
  repr self +:+ brace v.

Definition to_latex_raw (self : t) : string :=
  _get_command_formatted self (value self).

(** The six identifier fragments of a command, in the order of the macro's
    arguments. *)
Definition identifier (self : t) : list string :=
  [ benchmark_name self; runset_name self; column_title self;
    column_category self; column_subcategory self; stat_type self ].

End LatexCommand.

(** ** The generator *)

Definition TEX_HEADER : string :=
"% The following definition defines a command for each value.
% The command name is the concatenation of the first six arguments.
% To override this definition, define \StoreBenchExecResult with \newcommand before including this file.
% Arguments: benchmark name, runset name, column title, column category, column subcategory, statistic, value
\providecommand\StoreBenchExecResult[7]{\expandafter\newcommand\csname#1#2#3#4#5#6\endcsname{#7}}%
".

(** One call of [logging.warning], by its template, with its two
    arguments: the colliding name and the chosen suffix. *)
Inductive Warning :=
  | DuplicatedNames (names suffix : string)
  | DuplicatedColumn (column_title suffix : string).

Import LatexCommand.

(** The loop over [stat_value.__dict__.items()]: the command after the loop
    and the commands yielded by it. *)
Fixpoint stat_value_loop (column : Column.t) (command : LatexCommand.t)
    (items : StatValue) : LatexCommand.t * list LatexCommand.t :=
  match items with
  | [] => (command, [])
  | (k, v) :: items' =>
      match v with
      | None => stat_value_loop column command items'
      | Some v =>
          let command := set_command_part command part_stat_type k in
          let command :=
            set_command_value command (Column.format_value column v "csv") in
          let '(final, yielded) := stat_value_loop column command items' in
          (final, command :: yielded)
      end
  end.

(** The body of the loop over [column_statistic.__dict__.items()] for a
    statistic whose value is present. *)
Definition stat_commands (init_command : LatexCommand.t) (column : Column.t)
    (stat_name : string) (stat_value : StatValue) : list LatexCommand.t :=
  let command := init_command in
  let column_parts := Py.split_on (λ c, bool_decide (c = "_"%char)) stat_name in
  let column_parts :=
    if bool_decide (length column_parts < 2)
    then column_parts ++ [EmptyString] else column_parts in
  let command :=
    set_command_part command part_column_category
      (Py.join (util.cap_first_letter <$> removelast column_parts)) in
  let command :=
    set_command_part command part_column_subcategory
      (default EmptyString (last column_parts)) in
  let '(command, yielded) := stat_value_loop column command stat_value in
  if Py.truthy (Column.unit column)
  then
    let command := set_command_part command part_stat_type "unit" in
    let command := set_command_value command (Column.unit column) in
    yielded ++ [command]
  else yielded.

Fixpoint column_statistic_loop (init_command : LatexCommand.t)
    (column : Column.t) (items : ColumnStatistics) : list LatexCommand.t :=
  match items with
  | [] => []
  | (stat_name, stat_value) :: items' =>
      match stat_value with
      | None => column_statistic_loop init_command column items'
      | Some stat_value =>
          stat_commands init_command column stat_name stat_value
          ++ column_statistic_loop init_command column items'
      end
  end.

Definition _column_statistic_to_latex_command (init_command : LatexCommand.t)
    (column_statistic : option ColumnStatistics) (column : Column.t)
    : list LatexCommand.t :=
  match column_statistic with
  | None => []
  | Some items => column_statistic_loop init_command column items
  end.

Definition select_column_name (col : Column.t) : string :=
  if Py.truthy (Column.display_title col)
  then default EmptyString (Column.display_title col)
  else Column.title col.

(** The loop of [_provide_latex_commands] over
    [zip(run_set.columns, stat_list)]: the commands it yields and the
    warnings it logs. *)
Fixpoint column_loop (column_titles_total_count : gmap string nat)
    (column_titles_already_used : gmap string nat)
    (current_command : LatexCommand.t)
    (pairs : list (Column.t * option ColumnStatistics))
    : list LatexCommand.t * list Warning :=
  match pairs with
  | [] => ([], [])
  | (column, column_stats) :: pairs' =>
      let column_title := select_column_name column in
      let column_titles_already_used :=
        Py.increment column_titles_already_used column_title in
      let '(column_title, logged) :=
        if bool_decide (1 < Py.count_of column_titles_total_count column_title)
        then
          let suffix :=
            util.number_to_roman_string
              (N.of_nat (Py.count_of column_titles_already_used column_title)) in
          (column_title +:+ suffix, [DuplicatedColumn column_title suffix])
        else (column_title, []) in
      let current_command :=
        set_command_part current_command part_column_title column_title in
      let yielded :=
        _column_statistic_to_latex_command current_command column_stats column in
      let '(yielded', logged') :=
        column_loop column_titles_total_count column_titles_already_used
          current_command pairs' in
      (yielded ++ yielded', logged ++ logged')
  end.

Definition _provide_latex_commands (run_set : RunSet.t)
    (stat_list : list (option ColumnStatistics))
    (current_command : LatexCommand.t) : list LatexCommand.t * list Warning :=
  let column_titles_total_count :=
    Py.Counter (select_column_name <$> RunSet.columns run_set) in
  column_loop column_titles_total_count ∅ current_command
    (zip (RunSet.columns run_set) stat_list).

(** The loop of [write_tex_command_table] over [zip(run_sets, stats)]: the
    commands it takes from [_provide_latex_commands], in the order in which
    it writes them, and the warnings logged meanwhile. *)
Fixpoint run_set_loop (formatted_names : gmap nat (string * string))
    (names_total_counts : gmap (string * string) nat)
    (names_already_used : gmap (string * string) nat)
    (pairs : list (RunSet.t * list (option ColumnStatistics)))
    : list LatexCommand.t * list Warning :=
  match pairs with
  | [] => ([], [])
  | (run_set, stat_list) :: pairs' =>
      let name_tuple :=
        default (EmptyString, EmptyString)
          (formatted_names !! RunSet.id run_set) in
      let names_already_used := Py.increment names_already_used name_tuple in
      let '(benchmark_name_formatted, runset_name_formatted) := name_tuple in
      let '(benchmark_name_formatted, logged) :=
        if bool_decide (1 < Py.count_of names_total_counts name_tuple)
        then
          let suffix :=
            util.number_to_roman_string
              (N.of_nat (Py.count_of names_already_used name_tuple)) in
          (benchmark_name_formatted +:+ suffix,
           [DuplicatedNames
              (benchmark_name_formatted +:+ runset_name_formatted) suffix])
        else (benchmark_name_formatted, []) in
      let command :=
        LatexCommand.init benchmark_name_formatted runset_name_formatted in
      let '(commands, logged_columns) :=
        _provide_latex_commands run_set stat_list command in
      let '(commands', logged') :=
        run_set_loop formatted_names names_total_counts names_already_used
          pairs' in
      (commands ++ commands', logged ++ logged_columns ++ logged')
  end.

(** The first loop of [write_tex_command_table]: the formatted names of
    every run set, stored under the run set's identity. *)
Definition collect_formatted_names (run_sets : list RunSet.t)
    : gmap nat (string * string) :=
  foldl
    (λ formatted_names run_set,
       let benchmark_name_formatted :=
         format_command_part (RunSet.benchmarkname run_set) in
       let runset_name_formatted :=
         format_command_part (RunSet.niceName run_set) in
       <[RunSet.id run_set :=
           (benchmark_name_formatted, runset_name_formatted)]> formatted_names)
    ∅ run_sets.

(** The commands [write_tex_command_table] serialises, in order, and the
    warnings it logs. *)
Definition generate (run_sets : list RunSet.t)
    (stats : list (list (option ColumnStatistics)))
    : list LatexCommand.t * list Warning :=
  let formatted_names := collect_formatted_names run_sets in
  let names_total_counts :=
    Py.Counter (map_to_list formatted_names).*2 in
  run_set_loop formatted_names names_total_counts ∅ (zip run_sets stats).

(** The two writes of the driver per command:
    [out.write(latex_command.to_latex_raw())] and [out.write("%\n")]. *)
Definition write_commands (commands : list LatexCommand.t) : list string :=
  commands ≫= λ latex_command, [to_latex_raw latex_command; "%" +:+ Py.newline].

(** [write_tex_command_table(out, run_sets, stats)]: the chunks written to
    [out] when it returns (after those [out] already held) and the warnings
    logged. *)
Definition write_tex_command_table (out : list string)
    (run_sets : list RunSet.t)
    (stats : list (list (option ColumnStatistics)))
    : list string * list Warning :=
  let '(commands, logged) := generate run_sets stats in
  (out ++ TEX_HEADER :: write_commands commands, logged).

(** The text a sink holds: its chunks, concatenated. *)
Definition text_of (chunks : list string) : string := Py.join chunks.

(** The identifier tuples of the commands written, in order. *)
Definition emitted_identifiers (run_sets : list RunSet.t)
    (stats : list (list (option ColumnStatistics))) : list (list string) :=
  identifier <$> (generate run_sets stats).1.

(** ** Notions used to state the properties *)

(** Every character of [s] satisfies [p]. *)
Fixpoint string_forall (p : ascii → bool) (s : string) : bool :=
  match s with
  | EmptyString => true
  | String c s' => p c && string_forall p s'
  end.

Definition letters_only (s : string) : bool :=
  string_forall Py.is_ascii_letter s.

Definition upper_only (s : string) : bool :=
  string_forall Py.is_ascii_upper s.

(** An identifier fragment as the sanitizer produces it: letters only, and
    the first of them, if any, a capital. *)
Definition is_fragment (s : string) : bool :=
  letters_only s &&
  match s with
  | EmptyString => true
  | String c _ => Py.is_ascii_upper c
  end.

(** The second and third step of [format_command_part]: letter extraction
    and capitalisation, without the numeral substitution. *)
Definition extract_letters (name : string) : string :=
  Py.join (util.cap_first_letter <$> split_non_letters name).

(** The value of a Roman digit. *)
Definition roman_digit (c : ascii) : Z :=
  match c with
  | "I" => 1 | "V" => 5 | "X" => 10 | "L" => 50
  | "C" => 100 | "D" => 500 | "M" => 1000 | _ => 0
  end%char%Z.

(** The number a Roman numeral spells: a digit counts negatively when a
    larger digit follows it. *)
Fixpoint roman_value (s : string) : Z :=
  match s with
  | EmptyString => 0
  | String c s' =>
      let v := roman_digit c in
      let next := match s' with String d _ => roman_digit d | EmptyString => 0%Z end in
      ((if v <? next then - v else v) + roman_value s')%Z
  end.

(** ** The collision resolver of the specification

    The specification describes one resolver, applied to the run sets and
    to the columns of each run set: the total number of occurrences of
    every candidate key is computed once; walking the items in order, an
    item whose key occurs once keeps it, and an item whose key occurs more
    often gets the Roman numeral of the number of occurrences met so far,
    its own included. *)

Definition occurrences `{EqDecision K} (k : K) (keys : list K) : nat :=
  length (filter (λ x, x = k) keys).

(** The 1-based index of the occurrence of [k] at position [i] of [keys]. *)
Definition occurrence_index `{EqDecision K} (keys : list K) (i : nat) (k : K)
    : nat :=
  occurrences k (take (S i) keys).

(** The suffix of the item at position [i], whose key is [k]. *)
Definition resolver_suffix `{EqDecision K} (keys : list K) (i : nat) (k : K)
    : option string :=
  if bool_decide (2 ≤ occurrences k keys)
  then Some (util.number_to_roman_string (N.of_nat (occurrence_index keys i k)))
  else None.

Definition add_suffix (fragment : string) (suffix : option string) : string :=
  match suffix with
  | Some s => fragment +:+ s
  | None => fragment
  end.

(** The warning the resolver logs for a suffixed item, and none for an
    item it leaves alone. *)
Definition suffix_warning (w : string → Warning) (suffix : option string)
    : list Warning :=
  match suffix with
  | Some s => [w s]
  | None => []
  end.

(** The candidate key of a run set: its formatted benchmark name and its
    formatted run-set name. *)
Definition name_key (run_set : RunSet.t) : string * string :=
  (format_command_part (RunSet.benchmarkname run_set),
   format_command_part (RunSet.niceName run_set)).

(** The entry of a run set in the table of formatted names. *)
Definition named (run_set : RunSet.t) : nat * (string * string) :=
  (RunSet.id run_set, name_key run_set).

(** The candidate keys of all run sets and of all columns of a run set. *)
Definition name_keys (run_sets : list RunSet.t) : list (string * string) :=
  name_key <$> run_sets.

Definition column_titles (run_set : RunSet.t) : list string :=
  select_column_name <$> RunSet.columns run_set.

(** The commands of the column at position [j] of a run set, and the
    warning logged for it, as the resolver of the specification has it. *)
Definition column_block (titles : list string) (current_command : LatexCommand.t)
    (j : nat) (pair : Column.t * option ColumnStatistics)
    : list LatexCommand.t * list Warning :=
  let title := select_column_name pair.1 in
  let suffix := resolver_suffix titles j title in
  (_column_statistic_to_latex_command
     (set_command_part current_command part_column_title
        (add_suffix title suffix))
     pair.2 pair.1,
   suffix_warning (DuplicatedColumn title) suffix).

(** The commands of the run set at position [i], and the warnings logged
    for it, as the resolver of the specification has it: the suffix goes to
    the benchmark name. *)
Definition run_set_block (keys : list (string * string)) (i : nat)
    (pair : RunSet.t * list (option ColumnStatistics))
    : list LatexCommand.t * list Warning :=
  let key := name_key pair.1 in
  let suffix := resolver_suffix keys i key in
  let blocks :=
    imap
      (column_block (column_titles pair.1)
         (LatexCommand.init (add_suffix key.1 suffix) key.2))
      (zip (RunSet.columns pair.1) pair.2) in
  (mjoin blocks.*1,
   suffix_warning (DuplicatedNames (key.1 +:+ key.2)) suffix
   ++ mjoin blocks.*2).

(** The suffix a loop chooses with the tables [total] and [used] at hand,
    for the key [k] at position [i] of the keys it walks. *)
Definition loop_suffix `{Countable K} (total used : gmap K nat) (keys : list K)
    (i : nat) (k : K) : option string :=
  if bool_decide (1 < Py.count_of total k)
  then Some (util.number_to_roman_string
               (N.of_nat (Py.count_of used k + occurrence_index keys i k)))
  else None.

Definition column_loop_block (total used : gmap string nat)
    (current_command : LatexCommand.t) (titles : list string) (j : nat)
    (pair : Column.t * option ColumnStatistics)
    : list LatexCommand.t * list Warning :=
  let title := select_column_name pair.1 in
  let suffix := loop_suffix total used titles j title in
  (_column_statistic_to_latex_command
     (set_command_part current_command part_column_title
        (add_suffix title suffix))
     pair.2 pair.1,
   suffix_warning (DuplicatedColumn title) suffix).

(** The candidate key the driver finds in [formatted_names]. *)
Definition stored_key (formatted_names : gmap nat (string * string))
    (run_set : RunSet.t) : string * string :=
  default (EmptyString, EmptyString) (formatted_names !! RunSet.id run_set).

Definition run_set_loop_block (formatted_names : gmap nat (string * string))
    (total used : gmap (string * string) nat) (keys : list (string * string))
    (i : nat) (pair : RunSet.t * list (option ColumnStatistics))
    : list LatexCommand.t * list Warning :=
  let key := stored_key formatted_names pair.1 in
  let suffix := loop_suffix total used keys i key in
  let provided :=
    _provide_latex_commands pair.1 pair.2
      (LatexCommand.init (add_suffix key.1 suffix) key.2) in
  (provided.1,
   suffix_warning (DuplicatedNames (key.1 +:+ key.2)) suffix ++ provided.2).

(** ** The leaves of a statistic record *)

(** The entries of a record whose value is present, in the record's order. *)
Definition present {A B} (items : list (A * option B)) : list (A * B) :=
  omap (λ item, pair item.1 <$> item.2) items.

(** The command of a statistic before its kinds are walked: the copy of
    [init_command] with the category and the subcategory of [stat_name]. *)
Definition stat_command (init_command : LatexCommand.t) (stat_name : string)
    : LatexCommand.t :=
  let column_parts := Py.split_on (λ c, bool_decide (c = "_"%char)) stat_name in
  let column_parts :=
    if bool_decide (length column_parts < 2)
    then column_parts ++ [EmptyString] else column_parts in
  set_command_part
    (set_command_part init_command part_column_category
       (Py.join (util.cap_first_letter <$> removelast column_parts)))
    part_column_subcategory (default EmptyString (last column_parts)).

(** The leaf of a kind whose value is present, and the leaf of the unit. *)
Definition kind_leaf (column : Column.t) (command : LatexCommand.t)
    (kind : string * PyValue) : LatexCommand.t :=
  set_command_value (set_command_part command part_stat_type kind.1)
    (Column.format_value column kind.2 "csv").

Definition unit_leaf (column : Column.t) (command : LatexCommand.t)
    : LatexCommand.t :=
  set_command_value (set_command_part command part_stat_type "unit")
    (Column.unit column).

(** The leaves of one statistic, as the specification lists them: one per
    present kind, in order, then the unit if the column declares one. *)
Definition stat_leaves (init_command : LatexCommand.t) (column : Column.t)
    (stat : string * StatValue) : list LatexCommand.t :=
  let command := stat_command init_command stat.1 in
  (kind_leaf column command <$> present stat.2)
  ++ (if Py.truthy (Column.unit column) then [unit_leaf column command] else []).

(** The leaves of one column's record. *)
Definition record_leaves (init_command : LatexCommand.t) (column : Column.t)
    (column_statistic : option ColumnStatistics) : list LatexCommand.t :=
  present (default [] column_statistic) ≫= stat_leaves init_command column.

(** ** Sample inputs *)

Module sample.

(** A [format_value] that prints integers in decimal and leaves text as it is. *)
Definition format_value (v : PyValue) (format_target : string) : option string :=
  match v with
  | PyInt 0 => Some "0"
  | PyInt 1 => Some "1"
  | PyInt 2 => Some "2"
  | PyInt _ => Some "3"
  | PyDecimal _ _ => Some "0.5"
  | PyStr s => Some s
  end.

Definition column (title : string) (unit : option string) : Column.t :=
  {| Column.title := title; Column.display_title := None;
     Column.unit := unit; Column.format_value := format_value |}.

Definition run_set (id : nat) (benchmarkname niceName : string)
    (columns : list Column.t) : RunSet.t :=
  {| RunSet.id := id; RunSet.benchmarkname := benchmarkname;
     RunSet.niceName := niceName; RunSet.columns := columns |}.

(** A statistic with a zero, an absent and a positive kind. *)
Definition stat_value : StatValue :=
  [("sum", Some (PyInt 0)); ("min", None); ("max", Some (PyInt 2))].

(** A statistic all of whose kinds are absent. *)
Definition empty_stat_value : StatValue :=
  [("sum", None); ("min", None); ("max", None)].

Definition record : ColumnStatistics :=
  [("total", Some stat_value); ("correct_true", Some stat_value);
   ("score", None)].

(** A record with one statistic and one kind. *)
Definition small_record : ColumnStatistics := [("total", Some [("sum", Some (PyInt 1))])].

Definition command : LatexCommand.t := LatexCommand.init "bench" "tool".

(** Two run sets with the same names. *)
Definition twins : list RunSet.t :=
  [run_set 0 "a" "r" [column "x" None]; run_set 1 "a" "r" [column "x" None]].

Definition twin_stats : list (list (option ColumnStatistics)) :=
  [[Some small_record]; [Some small_record]].

(** Four run sets whose candidate keys are A, A, B, A. *)
Definition four : list RunSet.t :=
  [run_set 0 "a" "r" [column "x" None]; run_set 1 "a" "r" [column "x" None];
   run_set 2 "b" "r" [column "x" None]; run_set 3 "a" "r" [column "x" None]].

Definition four_stats : list (list (option ColumnStatistics)) :=
  [[Some small_record]; [Some small_record]; [Some small_record];
   [Some small_record]].

(** A run set with two columns whose titles differ and sanitize alike. *)
Definition alike : RunSet.t :=
  run_set 0 "bench" "tool" [column "cpu time" None; column "cpu-time" None].

Definition alike_stats : list (list (option ColumnStatistics)) :=
  [[Some small_record; Some small_record]].

(** Three run sets: two share their names, and the third is named as the
    first is once it has its suffix. *)
Definition clash : list RunSet.t :=
  [run_set 0 "a" "r" [column "x" None]; run_set 1 "a" "r" [column "x" None];
   run_set 2 "aI" "r" [column "x" None]].

Definition clash_stats : list (list (option ColumnStatistics)) :=
  [[Some small_record]; [Some small_record]; [Some small_record]].

End sample.

(** The benchmark and run-set fragments of a command. *)
Definition names_of (c : LatexCommand.t) : string * string :=
  (benchmark_name c, runset_name c).

(** ** Resolved names *)

(** The name pair of the run set at position [i]: the suffix, if any, ends
    the benchmark name. *)
Definition resolved_names (keys : list (string * string)) (i : nat)
    (key : string * string) : string * string :=
  (add_suffix key.1 (resolver_suffix keys i key), key.2).

(** The column-title fragment of the column at position [j]: the sanitized
    title, or the letters of the title followed by the suffix. *)
Definition resolved_column_title (titles : list string) (j : nat)
    (title : string) : string :=
  match resolver_suffix titles j title with
  | Some s => extract_letters title +:+ s
  | None => format_command_part title
  end.

(** ** The leaves of the input *)

(** A command with the three fragments that name its run set and column. *)
Definition named_command (names : string * string) (title : string)
    : LatexCommand.t :=
  {| benchmark_name := names.1; runset_name := names.2; column_title := title;
     column_category := EmptyString; column_subcategory := EmptyString;
     stat_type := EmptyString; value := None |}.

(** What a run set holds, its identity apart. *)
Definition content (run_set : RunSet.t) : string * string * list Column.t :=
  (RunSet.benchmarkname run_set, RunSet.niceName run_set,
   RunSet.columns run_set).

(** The category and subcategory fragments of a statistic name. *)
Definition stat_fragments (stat_name : string) : string * string :=
  let command := stat_command (named_command (EmptyString, EmptyString) EmptyString) stat_name in
  (column_category command, column_subcategory command).

(** ** Notions for the further properties *)

(** [c.lower()] on the ASCII range. *)
Definition to_lower (c : ascii) : ascii :=
  let n := N_of_ascii c in
  if ((65 <=? n) && (n <=? 90))%N then ascii_of_N (n + 32) else c.

Fixpoint string_map (f : ascii → ascii) (s : string) : string :=
  match s with
  | EmptyString => EmptyString
  | String c s' => String (f c) (string_map f s')
  end.

Fixpoint string_filter (p : ascii → bool) (s : string) : string :=
  match s with
  | EmptyString => EmptyString
  | String c s' => if p c then String c (string_filter p s') else string_filter p s'
  end.

(** The position of a part among the six fragments of the identifier. *)
Definition part_index (part : part_name) : nat :=
  match part with
  | part_benchmark_name => 0
  | part_runset_name => 1
  | part_column_title => 2
  | part_column_category => 3
  | part_column_subcategory => 4
  | part_stat_type => 5
  end.

(** A command all of whose six parts are fragments. *)
Definition well_formed (command : LatexCommand.t) : Prop :=
  Forall (λ fragment, is_fragment fragment = true) (identifier command).

(** The seven arguments of the written line. *)
Definition arguments (command : LatexCommand.t) : list string :=
  identifier command ++ [default EmptyString (value command)].

(** The name of the macro the header's definition gives a written line:
    [\csname#1#2#3#4#5#6\endcsname], the first six arguments in a row. *)
Definition macro_name (command : LatexCommand.t) : string :=
  Py.join (identifier command).

(** The number of leaves of a statistic record for a column. *)
Definition leaf_count (column : Column.t)
    (column_statistic : option ColumnStatistics) : nat :=
  sum_list
    ((λ stat : string * StatValue,
        length (present stat.2)
        + (if Py.truthy (Column.unit column) then 1 else 0))
     <$> present (default [] column_statistic)).

(** The number of commands for an input: the leaves of the records of the
    paired columns of the paired run sets. *)
Definition command_count (run_sets : list RunSet.t)
    (stats : list (list (option ColumnStatistics))) : nat :=
  sum_list
    ((λ pair : RunSet.t * list (option ColumnStatistics),
        sum_list
          ((λ column_pair : Column.t * option ColumnStatistics,
              leaf_count column_pair.1 column_pair.2)
           <$> zip (RunSet.columns pair.1) pair.2))
     <$> zip run_sets stats).

(** The key of every processed run set and the title of every processed
    column occur once. *)
Definition keys_unique (run_sets : list RunSet.t)
    (stats : list (list (option ColumnStatistics))) : Prop :=
  Forall
    (λ pair : RunSet.t * list (option ColumnStatistics),
       occurrences (name_key pair.1) (name_keys run_sets) = 1
       ∧ Forall
           (λ column_pair : Column.t * option ColumnStatistics,
              occurrences (select_column_name column_pair.1)
                (column_titles pair.1) = 1)
           (zip (RunSet.columns pair.1) pair.2))
    (zip run_sets stats).

Module sample2.

(** A run set with two columns of one title. *)
Definition two_columns : RunSet.t :=
  sample.run_set 0 "a" "r" [sample.column "x" None; sample.column "x" None].

Definition two_records : list (option ColumnStatistics) :=
  [Some sample.small_record; Some sample.small_record].

(** The command of the statistic "total", kind "sum", value 1, of a column
    titled [title] of a run set named [names]. *)
Definition leaf (benchmark runset title : string) : LatexCommand.t :=
  {| benchmark_name := benchmark; runset_name := runset; column_title := title;
     column_category := "Total"; column_subcategory := EmptyString;
     stat_type := "Sum"; value := Some "1" |}.

Definition single : RunSet.t := sample.run_set 0 "a" "r" [sample.column "x" None].
Definition same_names : RunSet.t := sample.run_set 1 "a" "r" [sample.column "x" None].
Definition other_names : RunSet.t := sample.run_set 2 "b" "r" [sample.column "x" None].

End sample2.

(** ** Run sets as objects

    The driver stores the formatted names under [id(run_set)] and counts
    the values of that table, so a run set that the list names more than
    once is one entry of the table and counts once, while the loop over
    [zip(run_sets, stats)] meets every listing of it. *)

(** The objects among the run sets: a run set whose identity is listed
    again further on is passed over, so every identity comes once, with its
    last listing, the one whose names the table keeps. *)
Fixpoint objects (run_sets : list RunSet.t) : list RunSet.t :=
  match run_sets with
  | [] => []
  | run_set :: rest =>
      if bool_decide (RunSet.id run_set ∈ RunSet.id <$> rest)
      then objects rest
      else run_set :: objects rest
  end.

(** The key of the object a run set is: the key of the last listing with
    its identity. *)
Definition object_key (run_sets : list RunSet.t) (run_set : RunSet.t)
    : string * string :=
  default (EmptyString, EmptyString)
    (last (name_key
           <$> filter (λ x, RunSet.id x = RunSet.id run_set) run_sets)).

(** The keys of the listings, in the order of the list. *)
Definition listing_keys (run_sets : list RunSet.t) : list (string * string) :=
  object_key run_sets <$> run_sets.

(** The suffix of the listing at position [i], whose key is [k]: the total
    is taken over the objects, the running index over the listings. *)
Definition object_suffix (run_sets : list RunSet.t) (i : nat)
    (k : string * string) : option string :=
  if bool_decide (2 ≤ occurrences k (name_keys (objects run_sets)))
  then Some (util.number_to_roman_string
               (N.of_nat (occurrence_index (listing_keys run_sets) i k)))
  else None.

(** The name pair of the listing at position [i]. *)
Definition object_names (run_sets : list RunSet.t) (i : nat)
    (run_set : RunSet.t) : string * string :=
  let key := object_key run_sets run_set in
  (add_suffix key.1 (object_suffix run_sets i key), key.2).

(** The commands of the listing at position [i], and the warnings logged
    for it. *)
Definition object_block (run_sets : list RunSet.t) (i : nat)
    (pair : RunSet.t * list (option ColumnStatistics))
    : list LatexCommand.t * list Warning :=
  let key := object_key run_sets pair.1 in
  let suffix := object_suffix run_sets i key in
  let blocks :=
    imap
      (column_block (column_titles pair.1)
         (LatexCommand.init (add_suffix key.1 suffix) key.2))
      (zip (RunSet.columns pair.1) pair.2) in
  (mjoin blocks.*1,
   suffix_warning (DuplicatedNames (key.1 +:+ key.2)) suffix
   ++ mjoin blocks.*2).

(** The traversal of the specification for any list of run sets: the
    listings in their order (paired with their statistics), then the columns
    of each (paired with their records), then the statistic names of each
    record, then the kinds of each statistic and last its unit. *)
Definition leaves_in_order (run_sets : list RunSet.t)
    (stats : list (list (option ColumnStatistics))) : list LatexCommand.t :=
  mjoin (imap
    (λ i pair,
       let names := object_names run_sets i pair.1 in
       mjoin (imap
         (λ j column_pair,
            let title :=
              resolved_column_title (column_titles pair.1) j
                (select_column_name column_pair.1) in
            present (default [] column_pair.2) ≫= λ stat,
              let command := stat_command (named_command names title) stat.1 in
              (kind_leaf column_pair.1 command <$> present stat.2)
              ++ (if Py.truthy (Column.unit column_pair.1)
                  then [unit_leaf column_pair.1 command] else []))
         (zip (RunSet.columns pair.1) pair.2)))
    (zip run_sets stats)).

(** Which listings are one object: for every two positions, whether the
    run sets there have one identity. *)
Definition identity_pattern (run_sets : list RunSet.t) : list (list bool) :=
  (λ a, (λ b, bool_decide (RunSet.id a = RunSet.id b)) <$> run_sets)
  <$> run_sets.

Module sample3.

(** One run set, listed twice. *)
Definition listed_twice : list RunSet.t := [sample2.single; sample2.single].

(** One run set listed twice, then another object with the same names. *)
Definition listed_twice_and_twin : list RunSet.t :=
  [sample2.single; sample2.single; sample2.same_names].

(** One run set listed twice, with a run set of other names in between. *)
Definition listed_around : list RunSet.t :=
  [sample2.single; sample2.other_names; sample2.single].

Definition three_stats : list (list (option ColumnStatistics)) :=
  [[Some sample.small_record]; [Some sample.small_record];
   [Some sample.small_record]].

(** The run sets of [listed_around] as other objects. *)
Definition listed_around_elsewhere : list RunSet.t :=
  [sample.run_set 9 "a" "r" [sample.column "x" None];
   sample.run_set 5 "b" "r" [sample.column "x" None];
   sample.run_set 9 "a" "r" [sample.column "x" None]].

End sample3.

(** * Properties *)

(** ** Strings *)

Lemma append_nil_l (s : string) : EmptyString +:+ s = s.
Proof. done. Qed.

Lemma append_cons (c : ascii) (s1 s2 : string) :
  String c s1 +:+ s2 = String c (s1 +:+ s2).
Proof. done. Qed.

Lemma append_nil_r (s : string) : s +:+ EmptyString = s.
Proof. induction s as [|c s IH]; [done | by rewrite append_cons, IH]. Qed.

Lemma append_assoc (s1 s2 s3 : string) : (s1 +:+ s2) +:+ s3 = s1 +:+ (s2 +:+ s3).
Proof. induction s1 as [|c s1 IH]; [done | by rewrite !append_cons, IH]. Qed.

Lemma append_inj_l (s t1 t2 : string) : s +:+ t1 = s +:+ t2 → t1 = t2.
Proof.
  induction s as [|c s IH]; [done |].
  rewrite !append_cons. intros [= H]. auto.
Qed.

Lemma append_eq_nil (s t : string) :
  s +:+ t = EmptyString → s = EmptyString ∧ t = EmptyString.
Proof. destruct s; [done | rewrite append_cons; discriminate]. Qed.

Lemma string_forall_app p (s t : string) :
  string_forall p (s +:+ t) = string_forall p s && string_forall p t.
Proof.
  induction s as [|c s IH]; [done |].
  rewrite append_cons. simpl. by rewrite IH, andb_assoc.
Qed.

Lemma string_forall_impl (p q : ascii → bool) s :
  (∀ c, p c = true → q c = true) →
  string_forall p s = true → string_forall q s = true.
Proof.
  intros Hpq. induction s as [|c s IH]; simpl; [done |].
  rewrite !andb_true_iff. intros [? ?]. auto.
Qed.

Lemma upper_is_letter c : Py.is_ascii_upper c = true → Py.is_ascii_letter c = true.
Proof.
  unfold Py.is_ascii_upper, Py.is_ascii_letter. cbv zeta.
  intros ->. done.
Qed.

Lemma upper_only_letters s : upper_only s = true → letters_only s = true.
Proof. apply string_forall_impl, upper_is_letter. Qed.

Lemma upper_of_letter c :
  Py.is_ascii_letter c = true → Py.is_ascii_upper (Py.upper c) = true.
Proof. revert c. intros [[] [] [] [] [] [] [] []]; vm_compute; done. Qed.

Lemma upper_of_upper c : Py.is_ascii_upper c = true → Py.upper c = c.
Proof. revert c. intros [[] [] [] [] [] [] [] []]; vm_compute; done. Qed.

(** ** [Py.split_on] and [Py.join] *)

Lemma split_on_snoc is_sep s :
  ∃ ws w, Py.split_on is_sep s = ws ++ [w].
Proof.
  induction s as [|c s (ws & w & IH)]; simpl.
  - by exists [], EmptyString.
  - destruct (is_sep c).
    + exists (EmptyString :: ws), w. by rewrite IH.
    + rewrite IH. destruct ws as [|w' ws]; simpl.
      * by exists [], (String c w).
      * by exists (String c w' :: ws), w.
Qed.

Lemma split_on_words is_sep s :
  Forall (λ w, string_forall (λ c, negb (is_sep c)) w = true)
    (Py.split_on is_sep s).
Proof.
  induction s as [|c s IH]; simpl.
  - by constructor.
  - destruct (is_sep c) eqn:Hc.
    + by constructor.
    + destruct (Py.split_on is_sep s) as [|w ws]; simpl.
      * constructor; [simpl; by rewrite Hc | done].
      * inversion_clear IH. constructor; [simpl; by rewrite Hc | done].
Qed.

Lemma split_on_no_sep is_sep s :
  string_forall (λ c, negb (is_sep c)) s = true → Py.split_on is_sep s = [s].
Proof.
  induction s as [|c s IH]; simpl; [done |].
  rewrite andb_true_iff, negb_true_iff. intros [-> Hs].
  by rewrite (IH Hs).
Qed.

Lemma split_on_app_no_sep is_sep s t ws w :
  Py.split_on is_sep s = ws ++ [w] →
  string_forall (λ c, negb (is_sep c)) t = true →
  Py.split_on is_sep (s +:+ t) = ws ++ [w +:+ t].
Proof.
  intros Hs Ht. revert ws w Hs.
  induction s as [|c s IH]; intros ws w Hs;
    [rewrite append_nil_l | rewrite append_cons]; simpl in *.
  - destruct ws as [|? [|? ?]]; simplify_eq/=. by apply split_on_no_sep.
  - destruct (is_sep c).
    + destruct ws as [|w' ws]; simplify_eq/=.
      * destruct (split_on_snoc is_sep s) as (? & ? & Heq).
        rewrite Heq in H0. by destruct x.
      * by rewrite (IH _ _ H0).
    + destruct (split_on_snoc is_sep s) as (ws' & w' & Heq).
      rewrite Heq in Hs. rewrite (IH _ _ Heq).
      destruct ws' as [|w'' ws']; simpl in *.
      * destruct ws as [|? [|? ?]]; simplify_eq/=. done.
      * destruct ws as [|? ws]; simplify_eq/=.
        { by destruct ws'. }
        apply app_inj_tail in H0 as [-> ->]. done.
Qed.

Lemma py_join_app ws1 ws2 : Py.join (ws1 ++ ws2) = Py.join ws1 +:+ Py.join ws2.
Proof.
  unfold Py.join. induction ws1 as [|w ws1 IH]; simpl; [done |].
  by rewrite IH, append_assoc.
Qed.

Lemma py_join_singleton w : Py.join [w] = w.
Proof. unfold Py.join. simpl. apply append_nil_r. Qed.

(** ** The sanitizer *)

Lemma cap_first_letter_app w s :
  w ≠ EmptyString →
  util.cap_first_letter (w +:+ s) = util.cap_first_letter w +:+ s.
Proof. by destruct w. Qed.

Lemma cap_first_letter_fragment s :
  is_fragment s = true → util.cap_first_letter s = s.
Proof.
  destruct s as [|c s]; [done |].
  unfold is_fragment. rewrite andb_true_iff. intros [_ Hc].
  simpl. by rewrite upper_of_upper.
Qed.

Lemma cap_first_letter_letters w :
  letters_only w = true → is_fragment (util.cap_first_letter w) = true.
Proof.
  destruct w as [|c w]; [done |].
  unfold is_fragment, letters_only. simpl.
  rewrite !andb_true_iff. intros [Hc Hw].
  pose proof (upper_of_letter c Hc) as Hu.
  by rewrite (upper_is_letter _ Hu), Hw, Hu.
Qed.

Lemma is_fragment_letters s : is_fragment s = true → letters_only s = true.
Proof. unfold is_fragment. rewrite andb_true_iff. by intros [? _]. Qed.

Lemma is_fragment_app s t :
  is_fragment s = true → is_fragment t = true → is_fragment (s +:+ t) = true.
Proof.
  destruct s as [|c s]; [done |].
  unfold is_fragment, letters_only. rewrite append_cons. simpl.
  rewrite string_forall_app, !andb_true_iff.
  intros [[? ?] ?] [? _]. done.
Qed.

Lemma upper_only_fragment s : upper_only s = true → is_fragment s = true.
Proof.
  intros Hs. unfold is_fragment. rewrite (upper_only_letters _ Hs).
  destruct s as [|c s]; [done |]. simpl in *.
  unfold upper_only in Hs. simpl in Hs.
  by apply andb_true_iff in Hs as [-> _].
Qed.

Lemma join_cap_fragment ws :
  Forall (λ w, letters_only w = true) ws →
  is_fragment (Py.join (util.cap_first_letter <$> ws)) = true.
Proof.
  induction 1 as [|w ws Hw _ IH]; [done |].
  change (is_fragment
    (util.cap_first_letter w +:+ Py.join (util.cap_first_letter <$> ws)) = true).
  by apply is_fragment_app; [apply cap_first_letter_letters |].
Qed.

Lemma split_non_letters_words name :
  Forall (λ w, letters_only w = true) (split_non_letters name).
Proof.
  unfold split_non_letters, letters_only.
  eapply Forall_impl; [apply split_on_words |].
  intros w Hw. eapply string_forall_impl; [| exact Hw].
  intros c. simpl. by rewrite negb_involutive.
Qed.

Lemma extract_letters_fragment name : is_fragment (extract_letters name) = true.
Proof. apply join_cap_fragment, split_non_letters_words. Qed.

Lemma format_command_part_extract name :
  format_command_part name = extract_letters (sub_roman name).
Proof. done. Qed.

Lemma format_command_part_fragment name :
  is_fragment (format_command_part name) = true.
Proof. apply extract_letters_fragment. Qed.

Lemma split_non_letters_letters s :
  letters_only s = true → split_non_letters s = [s].
Proof.
  intros Hs. apply split_on_no_sep.
  eapply string_forall_impl; [| exact Hs].
  intros c. simpl. by rewrite negb_involutive.
Qed.

Lemma extract_letters_of_fragment s :
  is_fragment s = true → extract_letters s = s.
Proof.
  intros Hs. unfold extract_letters.
  rewrite split_non_letters_letters by by apply is_fragment_letters.
  simpl. rewrite cap_first_letter_fragment by done. apply py_join_singleton.
Qed.

Lemma extract_letters_app t s :
  s ≠ EmptyString → is_fragment s = true →
  extract_letters (t +:+ s) = extract_letters t +:+ s.
Proof.
  intros Hne Hs. unfold extract_letters, split_non_letters.
  destruct (split_on_snoc (λ c, negb (Py.is_ascii_letter c)) t) as (ws & w & Ht).
  rewrite (split_on_app_no_sep _ _ _ _ _ Ht), Ht.
  - rewrite !fmap_app, !py_join_app.
    change (util.cap_first_letter <$> [w +:+ s]) with [util.cap_first_letter (w +:+ s)].
    change (util.cap_first_letter <$> [w]) with [util.cap_first_letter w].
    rewrite !py_join_singleton, append_assoc. f_equal.
    destruct w as [|c w].
    + rewrite append_nil_l. by apply cap_first_letter_fragment.
    + by apply cap_first_letter_app.
  - eapply string_forall_impl; [| apply is_fragment_letters, Hs].
    intros c. simpl. by rewrite negb_involutive.
Qed.

(** What a digit 1-9 is not. *)
Lemma digit_not_letter c :
  Py.is_digit_1_9 c = true → Py.is_ascii_letter c = false.
Proof. revert c. intros [[] [] [] [] [] [] [] []]; vm_compute; done. Qed.

Lemma span_1_9_app s : (span_1_9 s).1 +:+ (span_1_9 s).2 = s.
Proof.
  induction s as [|c s IH]; [done |]. simpl.
  destruct (Py.is_digit_1_9 c); [| done].
  destruct (span_1_9 s) as [digits rest]. simpl in *.
  by rewrite append_cons, IH.
Qed.

Lemma span_1_9_rest_app s t :
  match t with
  | String c _ => Py.is_digit_1_9 c = false
  | EmptyString => True
  end →
  span_1_9 (s +:+ t) = ((span_1_9 s).1, (span_1_9 s).2 +:+ t).
Proof.
  intros Ht. induction s as [|c s IH].
  - rewrite append_nil_l. destruct t as [|c t]; [done |]. simpl. by rewrite Ht.
  - rewrite append_cons. simpl. destruct (Py.is_digit_1_9 c); [| done].
    rewrite IH. by destruct (span_1_9 s).
Qed.

(** A label with a character that is no digit 1-9, other than a line feed
    at its end, is left alone by the numeral substitution. *)
Lemma sub_roman_other s c t :
  Py.is_digit_1_9 c = false →
  String c t ≠ Py.newline →
  sub_roman (s +:+ String c t) = s +:+ String c t.
Proof.
  intros Hc Hnl. unfold sub_roman.
  rewrite (span_1_9_rest_app s (String c t) Hc).
  rewrite bool_decide_eq_false_2; [done |].
  intros [_ [Hnil | Heq]].
  - by apply append_eq_nil in Hnil as [_ ?].
  - destruct (span_1_9 s).2 as [|d r].
    + by rewrite append_nil_l in Heq.
    + rewrite append_cons in Heq. injection Heq as _ Heq.
      by apply append_eq_nil in Heq as [_ ?].
Qed.

Lemma sub_roman_app_letters t s :
  s ≠ EmptyString → letters_only s = true → sub_roman (t +:+ s) = t +:+ s.
Proof.
  intros Hne Hs. destruct s as [|c s]; [done |].
  unfold letters_only in Hs. simpl in Hs.
  apply andb_true_iff in Hs as [Hc _].
  apply sub_roman_other.
  - destruct (Py.is_digit_1_9 c) eqn:Hd; [| done].
    apply digit_not_letter in Hd. congruence.
  - intros [= -> _]. vm_compute in Hc. done.
Qed.

(** A non-empty string of digits 1-9 is replaced by its numeral. *)
Lemma span_1_9_digits s :
  string_forall Py.is_digit_1_9 s = true → span_1_9 s = (s, EmptyString).
Proof.
  induction s as [|c s IH]; [done |]. simpl.
  rewrite andb_true_iff. intros [-> Hs]. by rewrite (IH Hs).
Qed.

Lemma sub_roman_digits s :
  s ≠ EmptyString → string_forall Py.is_digit_1_9 s = true →
  sub_roman s = util.number_to_roman_string (Py.int s).
Proof.
  intros Hne Hs. unfold sub_roman. rewrite (span_1_9_digits _ Hs).
  rewrite bool_decide_eq_true_2 by auto. apply append_nil_r.
Qed.

Lemma sub_roman_fragment s : letters_only s = true → sub_roman s = s.
Proof.
  intros Hs. destruct s as [|c s]; [done |].
  rewrite <- (append_nil_l (String c s)).
  by apply sub_roman_app_letters.
Qed.

(** The sanitizer leaves its own results alone. *)
Lemma format_command_part_of_fragment s :
  is_fragment s = true → format_command_part s = s.
Proof.
  intros Hs. rewrite format_command_part_extract.
  rewrite sub_roman_fragment by by apply is_fragment_letters.
  by apply extract_letters_of_fragment.
Qed.

Lemma format_command_part_idemp name :
  format_command_part (format_command_part name) = format_command_part name.
Proof. apply format_command_part_of_fragment, format_command_part_fragment. Qed.

(** A suffix of capital letters survives the sanitizer as it is. *)
Lemma format_command_part_suffixed t s :
  s ≠ EmptyString → is_fragment s = true →
  format_command_part (t +:+ s) = extract_letters t +:+ s.
Proof.
  intros Hne Hs. rewrite format_command_part_extract.
  rewrite sub_roman_app_letters by by (try apply is_fragment_letters).
  by apply extract_letters_app.
Qed.

(** ** Roman numerals *)

Section roman.

Let thousands (q : N) : string := N.iter q (String.append "M") EmptyString.
Let below_thousand (r : N) : string :=
  util.roman_from (tail util.ROMAN_NUMERALS) r.

Local Lemma roman_split n :
  util.number_to_roman_string n
  = thousands (n / 1000) +:+ below_thousand (n mod 1000).
Proof. done. Qed.

Local Lemma thousands_succ q :
  thousands (N.succ q) = String "M" (thousands q).
Proof. unfold thousands. by rewrite N.iter_succ. Qed.

Local Lemma thousands_upper q : upper_only (thousands q) = true.
Proof.
  induction q as [|q IH] using N.peano_ind; [done |].
  rewrite thousands_succ. unfold upper_only in *. simpl. by rewrite IH.
Qed.

Local Lemma roman_digit_le c : (roman_digit c ≤ 1000)%Z.
Proof. revert c. intros [[] [] [] [] [] [] [] []]; vm_compute; done. Qed.

Local Lemma roman_value_M s :
  roman_value (String "M" s) = (1000 + roman_value s)%Z.
Proof.
  simpl. destruct s as [|d s].
  - done.
  - pose proof (roman_digit_le d).
    change (roman_digit "M") with 1000%Z.
    destruct (1000 <? roman_digit d)%Z eqn:Hlt; [lia | done].
Qed.

Local Lemma thousands_value q s :
  roman_value (thousands q +:+ s) = (1000 * Z.of_N q + roman_value s)%Z.
Proof.
  induction q as [|q IH] using N.peano_ind.
  - by rewrite append_nil_l.
  - rewrite thousands_succ, append_cons, roman_value_M, IH. lia.
Qed.

Let below_thousand_ok (r : N) : bool :=
  upper_only (below_thousand r)
  && bool_decide (roman_value (below_thousand r) = Z.of_N r).

Local Lemma below_thousand_checked :
  forallb (λ i, below_thousand_ok (N.of_nat i)) (seq 0 1000) = true.
Proof. vm_compute. done. Qed.

Local Lemma below_thousand_spec r :
  (r < 1000)%N →
  upper_only (below_thousand r) = true
  ∧ roman_value (below_thousand r) = Z.of_N r.
Proof.
  intros Hr.
  pose proof below_thousand_checked as Hall.
  rewrite forallb_forall in Hall.
  specialize (Hall (N.to_nat r)).
  rewrite N2Nat.id in Hall.
  assert (In (N.to_nat r) (seq 0 1000)) as Hin by (apply in_seq; lia).
  apply Hall in Hin. unfold below_thousand_ok in Hin.
  apply andb_true_iff in Hin as [? Hv].
  by apply bool_decide_eq_true in Hv.
Qed.

(** The numeral spells the number. *)
Lemma roman_value_number_to_roman_string n :
  roman_value (util.number_to_roman_string n) = Z.of_N n.
Proof.
  rewrite roman_split, thousands_value.
  destruct (below_thousand_spec (n mod 1000)) as [_ ->].
  { apply N.mod_lt. done. }
  rewrite (N.div_mod n 1000) at 3 by done. lia.
Qed.

Lemma number_to_roman_string_inj n m :
  util.number_to_roman_string n = util.number_to_roman_string m → n = m.
Proof.
  intros H. apply (f_equal roman_value) in H.
  rewrite !roman_value_number_to_roman_string in H. lia.
Qed.

Lemma number_to_roman_string_upper n :
  upper_only (util.number_to_roman_string n) = true.
Proof.
  rewrite roman_split. unfold upper_only.
  rewrite string_forall_app. apply andb_true_iff. split.
  - apply thousands_upper.
  - apply below_thousand_spec, N.mod_lt. done.
Qed.

Lemma number_to_roman_string_nonempty n :
  n ≠ 0%N → util.number_to_roman_string n ≠ EmptyString.
Proof.
  intros Hn H. apply (f_equal roman_value) in H.
  rewrite roman_value_number_to_roman_string in H. simpl in H. lia.
Qed.

End roman.

Lemma number_to_roman_string_fragment n :
  is_fragment (util.number_to_roman_string n) = true.
Proof. apply upper_only_fragment, number_to_roman_string_upper. Qed.

(** ** Counting *)

Section counting.
Context `{Countable K}.
Implicit Types (k : K) (keys : list K) (counts : gmap K nat).

Lemma occurrences_nil k : occurrences k [] = 0.
Proof. done. Qed.

Lemma occurrences_cons k k' keys :
  occurrences k (k' :: keys)
  = (if decide (k' = k) then 1 else 0) + occurrences k keys.
Proof.
  unfold occurrences. rewrite filter_cons.
  by destruct (decide (k' = k)).
Qed.

Lemma occurrences_app k keys1 keys2 :
  occurrences k (keys1 ++ keys2) = occurrences k keys1 + occurrences k keys2.
Proof. unfold occurrences. by rewrite filter_app, length_app. Qed.

Lemma occurrences_perm k keys1 keys2 :
  keys1 ≡ₚ keys2 → occurrences k keys1 = occurrences k keys2.
Proof. unfold occurrences. by intros ->. Qed.

Lemma occurrences_elem k keys : k ∈ keys → 1 ≤ occurrences k keys.
Proof.
  induction 1 as [k keys | k k' keys _ IH]; rewrite occurrences_cons.
  - rewrite decide_True by done. lia.
  - lia.
Qed.

Lemma occurrences_take_le k keys n :
  occurrences k (take n keys) ≤ occurrences k keys.
Proof.
  rewrite <- (take_drop n keys) at 2. rewrite occurrences_app. lia.
Qed.

Lemma count_of_empty k : Py.count_of (∅ : gmap K nat) k = 0.
Proof. unfold Py.count_of. by rewrite lookup_empty. Qed.

Lemma count_of_increment counts k k' :
  Py.count_of (Py.increment counts k') k
  = Py.count_of counts k + (if decide (k' = k) then 1 else 0).
Proof.
  unfold Py.count_of, Py.increment.
  destruct (decide (k' = k)) as [-> | Hne].
  - by rewrite lookup_insert_eq.
  - rewrite lookup_insert_ne by done. unfold Py.count_of. lia.
Qed.

Lemma count_of_Counter_from counts keys k :
  Py.count_of
    (foldl (λ counts k, <[k := S (default 0 (counts !! k))]> counts) counts keys) k
  = Py.count_of counts k + occurrences k keys.
Proof.
  revert counts. induction keys as [|k' keys IH]; intros counts; simpl.
  - rewrite occurrences_nil. lia.
  - rewrite IH, occurrences_cons. unfold Py.count_of.
    destruct (decide (k' = k)) as [-> | Hne].
    + rewrite lookup_insert_eq. simpl. lia.
    + rewrite lookup_insert_ne by done. lia.
Qed.

(** A [Counter] holds the number of occurrences of every key. *)
Lemma count_of_Counter keys k :
  Py.count_of (Py.Counter keys) k = occurrences k keys.
Proof.
  unfold Py.Counter. rewrite count_of_Counter_from, count_of_empty. lia.
Qed.

End counting.

(** ** [LatexCommand] *)

Lemma set_command_part_twice c p v w :
  set_command_part (set_command_part c p v) p w = set_command_part c p w.
Proof. by destruct p. Qed.

Lemma identifier_set_column_title c v :
  identifier (set_command_part c part_column_title v)
  = [ benchmark_name c; runset_name c; format_command_part v;
      column_category c; column_subcategory c; stat_type c ].
Proof. done. Qed.

(** ** The loops and the resolver of the specification *)

Lemma loop_suffix_shift `{Countable K} (total used : gmap K nat) k0 keys i k :
  loop_suffix total (Py.increment used k0) keys i k
  = loop_suffix total used (k0 :: keys) (S i) k.
Proof.
  unfold loop_suffix, occurrence_index.
  rewrite count_of_increment.
  change (take (S (S i)) (k0 :: keys)) with (k0 :: take (S i) keys).
  rewrite occurrences_cons.
  destruct (bool_decide _); [| done].
  do 3 f_equal. lia.
Qed.

(** With an empty [used] table and a [total] table that counts all keys,
    the loops choose the suffix of the resolver. *)
Lemma loop_suffix_resolver `{Countable K} (total : gmap K nat)
    (all_keys keys : list K) i k :
  (∀ k, Py.count_of total k = occurrences k all_keys) →
  take (S i) keys = take (S i) all_keys →
  loop_suffix total ∅ keys i k = resolver_suffix all_keys i k.
Proof.
  intros Htotal Htake. unfold loop_suffix, resolver_suffix, occurrence_index.
  rewrite Htotal, count_of_empty, Htake.
  by rewrite (bool_decide_ext (1 < occurrences k all_keys)
                (2 ≤ occurrences k all_keys)) by lia.
Qed.

Lemma column_loop_block_shift total used current_command title0 v titles j pair :
  column_loop_block total (Py.increment used title0)
    (set_command_part current_command part_column_title v) titles j pair
  = column_loop_block total used current_command (title0 :: titles) (S j) pair.
Proof.
  unfold column_loop_block. cbv zeta.
  by rewrite loop_suffix_shift, set_command_part_twice.
Qed.

Lemma loop_suffix_head `{Countable K} (total used : gmap K nat) k keys :
  loop_suffix total used (k :: keys) 0 k
  = if bool_decide (1 < Py.count_of total k)
    then Some (util.number_to_roman_string
                 (N.of_nat (Py.count_of (Py.increment used k) k)))
    else None.
Proof.
  unfold loop_suffix, occurrence_index. destruct (bool_decide _); [| done].
  rewrite count_of_increment, decide_True by done.
  change (take 1 (k :: keys)) with [k].
  rewrite occurrences_cons, decide_True by done. done.
Qed.

Lemma column_loop_blocks total used current_command pairs :
  column_loop total used current_command pairs
  = let blocks :=
      imap (column_loop_block total used current_command
              (select_column_name <$> pairs.*1)) pairs in
    (mjoin blocks.*1, mjoin blocks.*2).
Proof.
  revert used current_command.
  induction pairs as [|[column column_stats] pairs IH];
    intros used current_command; [done |].
  cbn [column_loop]. cbv zeta.
  rewrite imap_cons. cbn [fmap list_fmap mjoin list_join fst snd].
  unfold column_loop_block at 1 3. cbn [fst snd]. cbv zeta.
  rewrite loop_suffix_head.
  destruct (bool_decide (1 < _)); rewrite IH; cbv zeta; cbn [add_suffix suffix_warning];
    (rewrite (imap_ext _ _ _
      (λ j pair _, column_loop_block_shift total used current_command
         (select_column_name column) _ (select_column_name <$> pairs.*1) j pair)));
    done.
Qed.

Lemma fst_zip_take {A B} (l : list A) (k : list B) :
  (zip l k).*1 = take (length k) l.
Proof.
  revert k. induction l as [|x l IH]; intros [|y k]; simpl; try done.
  by rewrite IH.
Qed.

Lemma take_fst_zip {A B C} (f : A → C) (l : list A) (k : list B) i p :
  zip l k !! i = Some p →
  take (S i) (f <$> (zip l k).*1) = take (S i) (f <$> l).
Proof.
  intros Hi. apply lookup_lt_Some in Hi. rewrite length_zip in Hi.
  rewrite fst_zip_take, fmap_take, take_take. f_equal. lia.
Qed.

(** [_provide_latex_commands] resolves the column titles as the resolver of
    the specification does, over the selected titles as they are. *)
Lemma provide_latex_commands_blocks run_set stat_list current_command :
  _provide_latex_commands run_set stat_list current_command
  = let blocks :=
      imap (column_block (column_titles run_set) current_command)
        (zip (RunSet.columns run_set) stat_list) in
    (mjoin blocks.*1, mjoin blocks.*2).
Proof.
  unfold _provide_latex_commands. rewrite column_loop_blocks. cbv zeta.
  erewrite imap_ext; [done |].
  intros j pair Hj. unfold column_loop_block, column_block. cbv zeta.
  rewrite (loop_suffix_resolver _ (column_titles run_set)); [done | |].
  - intros k. apply count_of_Counter.
  - by eapply take_fst_zip.
Qed.

Lemma run_set_loop_block_shift formatted_names total used key0 keys i pair :
  run_set_loop_block formatted_names total (Py.increment used key0) keys i pair
  = run_set_loop_block formatted_names total used (key0 :: keys) (S i) pair.
Proof.
  unfold run_set_loop_block. cbv zeta. by rewrite loop_suffix_shift.
Qed.

Lemma run_set_loop_blocks formatted_names total used pairs :
  run_set_loop formatted_names total used pairs
  = let blocks :=
      imap (run_set_loop_block formatted_names total used
              (stored_key formatted_names <$> pairs.*1)) pairs in
    (mjoin blocks.*1, mjoin blocks.*2).
Proof.
  revert used.
  induction pairs as [|[run_set stat_list] pairs IH]; intros used; [done |].
  cbn [run_set_loop]. cbv zeta.
  rewrite imap_cons. cbn [fmap list_fmap mjoin list_join fst snd].
  unfold run_set_loop_block at 1 3. cbn [fst snd]. cbv zeta.
  rewrite loop_suffix_head.
  fold (stored_key formatted_names run_set).
  destruct (stored_key formatted_names run_set) as [b r] eqn:Hkey.
  cbn [fst snd].
  destruct (bool_decide (1 < _)); cbn [add_suffix suffix_warning];
    destruct (_provide_latex_commands _ _ _) as [commands logged_columns];
    rewrite IH; cbv zeta; cbn [fst snd];
    (rewrite (imap_ext _ _ _
      (λ i pair _, run_set_loop_block_shift formatted_names total used
         (b, r) (stored_key formatted_names <$> pairs.*1) i pair)));
    by rewrite <- ?app_assoc.
Qed.

(** *** The table of formatted names *)

Lemma collect_formatted_names_list run_sets :
  collect_formatted_names run_sets = list_to_map (reverse (named <$> run_sets)).
Proof.
  unfold collect_formatted_names.
  induction run_sets as [|run_set run_sets IH] using rev_ind; [done |].
  rewrite foldl_app, fmap_app, reverse_app. simpl. by rewrite IH.
Qed.

Lemma named_ids run_sets : (named <$> run_sets).*1 = RunSet.id <$> run_sets.
Proof. by rewrite <- list_fmap_compose. Qed.

Lemma named_keys run_sets : (named <$> run_sets).*2 = name_keys run_sets.
Proof. unfold name_keys. by rewrite <- list_fmap_compose. Qed.

(** Distinct run sets: the table holds the key of each, and its values are
    the keys of all. *)
Lemma collect_formatted_names_lookup run_sets run_set :
  NoDup (RunSet.id <$> run_sets) → run_set ∈ run_sets →
  stored_key (collect_formatted_names run_sets) run_set = name_key run_set.
Proof.
  intros Hids Hin. unfold stored_key.
  rewrite collect_formatted_names_list.
  erewrite (elem_of_list_to_map_1 _ (RunSet.id run_set) (name_key run_set));
    [done | |].
  - by rewrite fmap_reverse, named_ids, reverse_Permutation.
  - rewrite elem_of_reverse. apply (list_elem_of_fmap_2 named _ _ Hin).
Qed.

Lemma collect_formatted_names_values run_sets k :
  NoDup (RunSet.id <$> run_sets) →
  Py.count_of (Py.Counter (map_to_list (collect_formatted_names run_sets)).*2) k
  = occurrences k (name_keys run_sets).
Proof.
  intros Hids. rewrite count_of_Counter. apply occurrences_perm.
  rewrite collect_formatted_names_list, map_to_list_to_map.
  - by rewrite reverse_Permutation, named_keys.
  - by rewrite fmap_reverse, named_ids, reverse_Permutation.
Qed.

(** The driver resolves the names of distinct run sets as the resolver of
    the specification does, with the suffix on the benchmark name. *)
Lemma generate_blocks run_sets stats :
  NoDup (RunSet.id <$> run_sets) →
  generate run_sets stats
  = let blocks :=
      imap (run_set_block (name_keys run_sets)) (zip run_sets stats) in
    (mjoin blocks.*1, mjoin blocks.*2).
Proof.
  intros Hids. unfold generate. cbv zeta. rewrite run_set_loop_blocks. cbv zeta.
  erewrite imap_ext; [done |].
  intros i [run_set stat_list] Hi.
  unfold run_set_loop_block, run_set_block. cbv zeta. cbn [fst snd].
  assert (∀ rs, rs ∈ (zip run_sets stats).*1 → rs ∈ run_sets) as Hsub.
  { intros rs. rewrite fst_zip_take. apply subseteq_take. }
  rewrite collect_formatted_names_lookup; [| done |].
  2:{ apply Hsub. apply list_elem_of_lookup_2 in Hi.
      by apply (list_elem_of_fmap_2 fst _ _ Hi). }
  rewrite (loop_suffix_resolver _ (name_keys run_sets)).
  - by rewrite provide_latex_commands_blocks.
  - intros k. by apply collect_formatted_names_values.
  - erewrite (list_fmap_ext (stored_key _) name_key).
    + by eapply take_fst_zip.
    + intros ? rs Hrs%list_elem_of_lookup_2.
      apply collect_formatted_names_lookup; auto.
Qed.

(** ** The walker *)

Lemma present_nil {A B} : present (@nil (A * option B)) = [].
Proof. done. Qed.

Lemma present_cons_None {A B} (a : A) (items : list (A * option B)) :
  present ((a, None) :: items) = present items.
Proof. done. Qed.

Lemma present_cons_Some {A B} (a : A) (b : B) (items : list (A * option B)) :
  present ((a, Some b) :: items) = (a, b) :: present items.
Proof. done. Qed.

Lemma present_app {A B} (items1 items2 : list (A * option B)) :
  present (items1 ++ items2) = present items1 ++ present items2.
Proof. unfold present. apply omap_app. Qed.

(** A leaf overwrites the kind and the value of the command it starts from. *)
Lemma kind_leaf_overwrites column command kind kind' :
  kind_leaf column (kind_leaf column command kind) kind'
  = kind_leaf column command kind'.
Proof. done. Qed.

Lemma unit_leaf_overwrites column command kind :
  unit_leaf column (kind_leaf column command kind) = unit_leaf column command.
Proof. done. Qed.

Lemma stat_value_loop_leaves column command items :
  (stat_value_loop column command items).2
  = kind_leaf column command <$> present items
  ∧ unit_leaf column (stat_value_loop column command items).1
    = unit_leaf column command.
Proof.
  revert command. induction items as [|[k [v|]] items IH]; intros command.
  - done.
  - cbn [stat_value_loop].
    change (set_command_value (set_command_part command part_stat_type k)
              (Column.format_value column v "csv"))
      with (kind_leaf column command (k, v)).
    destruct (IH (kind_leaf column command (k, v))) as [IH1 IH2].
    destruct (stat_value_loop column (kind_leaf column command (k, v)) items)
      as [final yielded].
    cbn [fst snd] in *. rewrite present_cons_Some, fmap_cons. split.
    + f_equal. rewrite IH1. apply list_fmap_ext. intros _ kind _.
      apply kind_leaf_overwrites.
    + by rewrite IH2.
  - cbn [stat_value_loop]. rewrite present_cons_None. apply IH.
Qed.

Lemma stat_commands_leaves init_command column stat_name stat_value :
  stat_commands init_command column stat_name stat_value
  = stat_leaves init_command column (stat_name, stat_value).
Proof.
  unfold stat_commands, stat_leaves. cbv zeta. cbn [fst snd].
  fold (stat_command init_command stat_name).
  destruct (stat_value_loop_leaves column
              (stat_command init_command stat_name) stat_value) as [H1 H2].
  destruct (stat_value_loop column _ stat_value) as [final yielded].
  cbn [fst snd] in *. rewrite H1.
  destruct (Py.truthy (Column.unit column)); [| by rewrite app_nil_r].
  f_equal. f_equal. exact H2.
Qed.

Lemma column_statistic_loop_leaves init_command column items :
  column_statistic_loop init_command column items
  = present items ≫= stat_leaves init_command column.
Proof.
  induction items as [|[stat_name [stat_value|]] items IH].
  - done.
  - cbn [column_statistic_loop].
    rewrite present_cons_Some, bind_cons, IH. f_equal.
    apply stat_commands_leaves.
  - cbn [column_statistic_loop]. by rewrite present_cons_None.
Qed.

(** The walker yields the leaves of the record, in the record's order. *)
Lemma column_statistic_to_latex_command_leaves init_command column_statistic column :
  _column_statistic_to_latex_command init_command column_statistic column
  = record_leaves init_command column column_statistic.
Proof.
  destruct column_statistic as [items|]; [| done].
  apply column_statistic_loop_leaves.
Qed.

(** ** Suffixes and fragments *)

Lemma occurrence_index_pos `{EqDecision K} (keys : list K) i k :
  keys !! i = Some k → 1 ≤ occurrence_index keys i k.
Proof.
  intros Hi. unfold occurrence_index, occurrences.
  assert (k ∈ filter (λ x, x = k) (take (S i) keys)) as Hin.
  { apply list_elem_of_filter. split; [done |].
    apply elem_of_take. exists i. split; [done | lia]. }
  destruct (filter _ _); [by apply elem_of_nil in Hin | simpl; lia].
Qed.

Lemma occurrence_index_le `{EqDecision K} (keys : list K) i k :
  occurrence_index keys i k ≤ occurrences k keys.
Proof.
  unfold occurrence_index, occurrences.
  rewrite <- (take_drop (S i) keys) at 2.
  rewrite filter_app, length_app. lia.
Qed.

(** Two positions with the same key have different occurrence indices. *)
Lemma occurrence_index_inj `{EqDecision K} (keys : list K) i j k :
  keys !! i = Some k → keys !! j = Some k →
  occurrence_index keys i k = occurrence_index keys j k → i = j.
Proof.
  assert (∀ i j, i < j → keys !! j = Some k →
            occurrence_index keys i k < occurrence_index keys j k) as Hlt.
  { clear i j. intros i j Hij Hj. unfold occurrence_index, occurrences.
    rewrite <- (take_drop (S i) (take (S j) keys)).
    rewrite take_take, Nat.min_l by lia.
    rewrite filter_app, length_app.
    assert (k ∈ filter (λ x, x = k) (drop (S i) (take (S j) keys))) as Hin.
    { apply list_elem_of_filter. split; [done |].
      apply list_elem_of_lookup. exists (j - S i).
      rewrite lookup_drop, lookup_take_lt by lia.
      rewrite <- Hj. f_equal. lia. }
    destruct (filter _ (drop _ _)); [by apply elem_of_nil in Hin | simpl; lia]. }
  intros Hi Hj Heq.
  destruct (Nat.lt_trichotomy i j) as [Hij | [-> | Hji]]; [| done |].
  - specialize (Hlt i j Hij Hj). lia.
  - specialize (Hlt j i Hji Hi). lia.
Qed.

Lemma resolver_suffix_Some `{EqDecision K} (keys : list K) i k s :
  resolver_suffix keys i k = Some s →
  2 ≤ occurrences k keys
  ∧ s = util.number_to_roman_string (N.of_nat (occurrence_index keys i k)).
Proof.
  unfold resolver_suffix. case_bool_decide; [| done]. by intros [= <-].
Qed.

Lemma resolver_suffix_None `{EqDecision K} (keys : list K) i k :
  resolver_suffix keys i k = None → occurrences k keys < 2.
Proof. unfold resolver_suffix. case_bool_decide; [done | lia]. Qed.

Lemma resolver_suffix_fragment `{EqDecision K} (keys : list K) i k s :
  keys !! i = Some k → resolver_suffix keys i k = Some s →
  s ≠ EmptyString ∧ is_fragment s = true.
Proof.
  intros Hi [_ ->]%resolver_suffix_Some. split.
  - apply number_to_roman_string_nonempty.
    apply occurrence_index_pos in Hi. lia.
  - apply number_to_roman_string_fragment.
Qed.

(** Among the items with one key, the suffix tells the position. *)
Lemma resolver_suffix_inj `{EqDecision K} (keys : list K) i j k s :
  keys !! i = Some k → keys !! j = Some k →
  resolver_suffix keys i k = Some s → resolver_suffix keys j k = Some s →
  i = j.
Proof.
  intros Hi Hj [_ ->]%resolver_suffix_Some [_ Heq]%resolver_suffix_Some.
  apply number_to_roman_string_inj in Heq.
  apply (occurrence_index_inj keys i j k); [done | done | lia].
Qed.

(** What the sanitizer makes of a resolved name. *)
Lemma format_resolved_benchmark_name (keys : list (string * string)) i key :
  keys !! i = Some key → is_fragment key.1 = true →
  format_command_part (add_suffix key.1 (resolver_suffix keys i key))
  = add_suffix key.1 (resolver_suffix keys i key).
Proof.
  intros Hi Hfrag.
  destruct (resolver_suffix keys i key) as [s|] eqn:Hs; simpl.
  - destruct (resolver_suffix_fragment keys i key s Hi Hs) as [Hne Hfs].
    rewrite format_command_part_suffixed by done.
    by rewrite extract_letters_of_fragment.
  - by apply format_command_part_of_fragment.
Qed.

Lemma format_resolved_column_title (titles : list string) j title :
  titles !! j = Some title →
  format_command_part (add_suffix title (resolver_suffix titles j title))
  = resolved_column_title titles j title.
Proof.
  intros Hj. unfold resolved_column_title.
  destruct (resolver_suffix titles j title) as [s|] eqn:Hs; simpl; [| done].
  destruct (resolver_suffix_fragment titles j title s Hj Hs) as [Hne Hfs].
  by apply format_command_part_suffixed.
Qed.

Lemma name_key_fragments run_set :
  is_fragment (name_key run_set).1 = true
  ∧ is_fragment (name_key run_set).2 = true.
Proof. split; apply format_command_part_fragment. Qed.

(** ** Where the leaves of a block come from *)

Lemma stat_leaves_prefix init_command column stat leaf :
  leaf ∈ stat_leaves init_command column stat →
  benchmark_name leaf = benchmark_name init_command
  ∧ runset_name leaf = runset_name init_command
  ∧ column_title leaf = column_title init_command
  ∧ column_category leaf = column_category (stat_command init_command stat.1)
  ∧ column_subcategory leaf
    = column_subcategory (stat_command init_command stat.1).
Proof.
  unfold stat_leaves. cbv zeta. rewrite elem_of_app. intros [Hin | Hin].
  - apply list_elem_of_fmap in Hin as (kind & -> & _). done.
  - destruct (Py.truthy _); [| by apply elem_of_nil in Hin].
    apply list_elem_of_singleton in Hin as ->. done.
Qed.

Lemma record_leaves_prefix init_command column column_statistic leaf :
  leaf ∈ record_leaves init_command column column_statistic →
  benchmark_name leaf = benchmark_name init_command
  ∧ runset_name leaf = runset_name init_command
  ∧ column_title leaf = column_title init_command.
Proof.
  unfold record_leaves. intros (stat & Hleaf & _)%list_elem_of_bind.
  apply stat_leaves_prefix in Hleaf as (? & ? & ? & _). done.
Qed.

Lemma elem_of_join_imap {A B} (f : nat → A → list B) (l : list A) y :
  y ∈ mjoin (imap f l) ↔ ∃ i x, l !! i = Some x ∧ y ∈ f i x.
Proof.
  rewrite list_elem_of_join. split.
  - intros (ys & Hy & Hys). apply elem_of_lookup_imap in Hys as (i & x & -> & Hi).
    eauto.
  - intros (i & x & Hi & Hy). exists (f i x). split; [done |].
    apply elem_of_lookup_imap. eauto.
Qed.

Lemma fst_imap {A B C} (f : nat → A → B * C) (l : list A) :
  (imap f l).*1 = imap (λ i x, (f i x).1) l.
Proof.
  revert f. induction l as [|x l IH]; intros f; [done |].
  rewrite !imap_cons, fmap_cons. f_equal. apply IH.
Qed.

Lemma snd_imap {A B C} (f : nat → A → B * C) (l : list A) :
  (imap f l).*2 = imap (λ i x, (f i x).2) l.
Proof.
  revert f. induction l as [|x l IH]; intros f; [done |].
  rewrite !imap_cons, fmap_cons. f_equal. apply IH.
Qed.

(** ** The commands of a block *)

Lemma zip_lookup_fst {A B C} (f : A → C) (l : list A) (k : list B) i p :
  zip l k !! i = Some p → (f <$> l) !! i = Some (f p.1).
Proof.
  intros (x & y & -> & Hx & _)%lookup_zip_with_Some.
  by rewrite list_lookup_fmap, Hx.
Qed.

(** The commands of the column at position [j]: the leaves of its record,
    under the resolved column title. *)
Lemma column_block_commands titles current_command j pair :
  titles !! j = Some (select_column_name pair.1) →
  (column_block titles current_command j pair).1
  = record_leaves
      (set_command_part current_command part_column_title
         (add_suffix (select_column_name pair.1)
            (resolver_suffix titles j (select_column_name pair.1))))
      pair.1 pair.2
  ∧ ∀ leaf, leaf ∈ (column_block titles current_command j pair).1 →
      benchmark_name leaf = benchmark_name current_command
      ∧ runset_name leaf = runset_name current_command
      ∧ column_title leaf
        = resolved_column_title titles j (select_column_name pair.1).
Proof.
  intros Hj. unfold column_block. cbv zeta. cbn [fst].
  rewrite column_statistic_to_latex_command_leaves. split; [done |].
  intros leaf (Hb & Hr & Ht)%record_leaves_prefix.
  rewrite Hb, Hr, Ht. split_and!; [done | done |].
  cbn [column_title set_command_part].
  by apply format_resolved_column_title.
Qed.

(** The commands of the run set at position [i] carry its resolved names
    and the resolved title of their column. *)
Lemma run_set_block_commands keys i pair leaf :
  keys !! i = Some (name_key pair.1) →
  leaf ∈ (run_set_block keys i pair).1 →
  (benchmark_name leaf, runset_name leaf)
  = resolved_names keys i (name_key pair.1)
  ∧ ∃ j column_pair,
      zip (RunSet.columns pair.1) pair.2 !! j = Some column_pair
      ∧ column_title leaf
        = resolved_column_title (column_titles pair.1) j
            (select_column_name column_pair.1)
      ∧ leaf ∈ (column_block (column_titles pair.1)
                  (LatexCommand.init
                     (add_suffix (name_key pair.1).1
                        (resolver_suffix keys i (name_key pair.1)))
                     (name_key pair.1).2) j column_pair).1.
Proof.
  intros Hi. unfold run_set_block. cbv zeta. cbn [fst].
  rewrite fst_imap, elem_of_join_imap.
  intros (j & column_pair & Hj & Hleaf).
  pose proof (zip_lookup_fst select_column_name _ _ _ _ Hj) as Htitle.
  destruct (proj2 (column_block_commands _ _ _ _ Htitle) leaf Hleaf)
    as (Hb & Hr & Ht).
  destruct (name_key_fragments pair.1) as [Hf1 Hf2].
  split.
  - unfold resolved_names. rewrite Hb, Hr.
    cbn [benchmark_name runset_name LatexCommand.init]. f_equal.
    + by apply format_resolved_benchmark_name.
    + by apply format_command_part_of_fragment.
  - exists j, column_pair. done.
Qed.

Lemma zip_lookup_name_key run_sets (stats : list (list (option ColumnStatistics)))
    i pair :
  zip run_sets stats !! i = Some pair →
  name_keys run_sets !! i = Some (name_key pair.1).
Proof. apply zip_lookup_fst. Qed.

(** Every command written comes from the block of a run set. *)
Lemma generate_commands run_sets stats leaf :
  NoDup (RunSet.id <$> run_sets) →
  leaf ∈ (generate run_sets stats).1 ↔
  ∃ i pair, zip run_sets stats !! i = Some pair
            ∧ leaf ∈ (run_set_block (name_keys run_sets) i pair).1.
Proof.
  intros Hids. rewrite generate_blocks by done. cbv zeta. cbn [fst].
  by rewrite fst_imap, elem_of_join_imap.
Qed.

(** ** Items with one key *)

Lemma bind_join_imap {A B} (f : A → list B) (l : list A) :
  l ≫= f = mjoin (imap (λ _, f) l).
Proof.
  induction l as [|x l IH]; [done |].
  rewrite bind_cons, imap_cons. cbn [mjoin list_join]. by rewrite IH.
Qed.

Lemma duplicated_twice `{EqDecision K} (keys : list K) i j k :
  i ≠ j → keys !! i = Some k → keys !! j = Some k → 2 ≤ occurrences k keys.
Proof.
  intros Hij Hi Hj.
  pose proof (occurrence_index_pos keys i k Hi).
  pose proof (occurrence_index_pos keys j k Hj).
  pose proof (occurrence_index_le keys i k).
  pose proof (occurrence_index_le keys j k).
  destruct (decide (occurrence_index keys i k = occurrence_index keys j k))
    as [Heq | Hne]; [| lia].
  by apply occurrence_index_inj in Heq.
Qed.

(** Two items with one key get different suffixes. *)
Lemma resolver_suffix_apart `{EqDecision K} (keys : list K) i j k :
  i ≠ j → keys !! i = Some k → keys !! j = Some k →
  ∃ s s', resolver_suffix keys i k = Some s
          ∧ resolver_suffix keys j k = Some s' ∧ s ≠ s'.
Proof.
  intros Hij Hi Hj.
  pose proof (duplicated_twice keys i j k Hij Hi Hj) as Htwo.
  unfold resolver_suffix. rewrite bool_decide_eq_true_2 by done.
  eexists _, _. split_and!; [done | done |].
  intros Heq%number_to_roman_string_inj.
  apply Hij, (occurrence_index_inj keys i j k); [done | done | lia].
Qed.

(** ** What the run sets hold *)

Lemma name_keys_content run_sets run_sets' :
  content <$> run_sets = content <$> run_sets' →
  name_keys run_sets = name_keys run_sets'.
Proof.
  intros Heq. unfold name_keys.
  assert (∀ run_set, name_key run_set
            = (format_command_part (content run_set).1.1,
               format_command_part (content run_set).1.2)) as Hkey by done.
  rewrite !(list_fmap_ext name_key _ _ (λ _ run_set _, Hkey run_set)).
  rewrite !(list_fmap_compose content
              (λ c, (format_command_part c.1.1, format_command_part c.1.2))).
  by rewrite Heq.
Qed.

(** ** The table of formatted names, for any list of run sets *)

Lemma list_to_map_snoc {A} (l : list (nat * A)) i x :
  list_to_map (l ++ [(i, x)])
  =@{gmap nat A} if bool_decide (i ∈ l.*1) then list_to_map l
                 else <[i := x]> (list_to_map l).
Proof.
  induction l as [|[j y] l IH]; [done |].
  cbn [app list_to_map foldr fmap list_fmap fst snd uncurry].
  change (foldr (λ '(k, v), <[k:=v]>) ∅ (l ++ [(i, x)]))
    with (list_to_map (l ++ [(i, x)]) : gmap nat A).
  change (foldr (λ '(k, v), <[k:=v]>) ∅ l) with (list_to_map l : gmap nat A).
  rewrite IH.
  destruct (decide (i = j)) as [-> | Hne].
  - rewrite (bool_decide_eq_true_2 (j ∈ j :: l.*1)) by left.
    case_bool_decide; [done |]. by rewrite insert_insert_eq.
  - case_bool_decide as Hin.
    + by rewrite bool_decide_eq_true_2 by (by right).
    + rewrite bool_decide_eq_false_2.
      * by apply insert_insert_ne.
      * rewrite elem_of_cons. intros [? | ?]; done.
Qed.

Lemma collect_formatted_names_cons run_set run_sets :
  collect_formatted_names (run_set :: run_sets)
  = if bool_decide (RunSet.id run_set ∈ RunSet.id <$> run_sets)
    then collect_formatted_names run_sets
    else <[RunSet.id run_set := name_key run_set]>
           (collect_formatted_names run_sets).
Proof.
  rewrite !collect_formatted_names_list, fmap_cons, reverse_cons.
  unfold named at 2. rewrite list_to_map_snoc.
  by rewrite fmap_reverse, named_ids,
    (bool_decide_ext _ _ (elem_of_reverse _ _)).
Qed.

Lemma collect_formatted_names_dom run_sets i :
  i ∉ RunSet.id <$> run_sets → collect_formatted_names run_sets !! i = None.
Proof.
  intros Hi. rewrite collect_formatted_names_list.
  apply not_elem_of_list_to_map_1.
  by rewrite fmap_reverse, named_ids, elem_of_reverse.
Qed.

(** The entries of the table are the objects, each with its key. *)
Lemma collect_formatted_names_objects run_sets :
  map_to_list (collect_formatted_names run_sets) ≡ₚ named <$> objects run_sets.
Proof.
  induction run_sets as [|run_set run_sets IH].
  { unfold collect_formatted_names. simpl. by rewrite map_to_list_empty. }
  rewrite collect_formatted_names_cons. cbn [objects].
  case_bool_decide as Hin; [done |].
  rewrite map_to_list_insert by by apply collect_formatted_names_dom.
  rewrite fmap_cons, IH. done.
Qed.

Lemma collect_formatted_names_counts run_sets k :
  Py.count_of (Py.Counter (map_to_list (collect_formatted_names run_sets)).*2) k
  = occurrences k (name_keys (objects run_sets)).
Proof.
  rewrite count_of_Counter. apply occurrences_perm.
  by rewrite collect_formatted_names_objects, named_keys.
Qed.

Lemma collect_formatted_names_snoc run_sets run_set :
  collect_formatted_names (run_sets ++ [run_set])
  = <[RunSet.id run_set := name_key run_set]>
      (collect_formatted_names run_sets).
Proof. unfold collect_formatted_names. by rewrite foldl_app. Qed.

(** The driver finds, for any run set, the key of the object it is. *)
Lemma stored_key_object_key run_sets run_set :
  stored_key (collect_formatted_names run_sets) run_set
  = object_key run_sets run_set.
Proof.
  unfold stored_key, object_key.
  induction run_sets as [|x run_sets IH] using rev_ind; [done |].
  rewrite collect_formatted_names_snoc, filter_app, fmap_app.
  rewrite filter_cons, filter_nil.
  destruct (decide (RunSet.id x = RunSet.id run_set)) as [Heq | Hne].
  - rewrite Heq, lookup_insert_eq. cbn [fmap list_fmap].
    by rewrite last_snoc.
  - rewrite lookup_insert_ne by done. cbn [fmap list_fmap].
    by rewrite app_nil_r.
Qed.

Lemma loop_suffix_object (total : gmap (string * string) nat) run_sets
    (keys : list (string * string)) i k :
  (∀ k, Py.count_of total k = occurrences k (name_keys (objects run_sets))) →
  take (S i) keys = take (S i) (listing_keys run_sets) →
  loop_suffix total ∅ keys i k = object_suffix run_sets i k.
Proof.
  intros Htotal Htake. unfold loop_suffix, object_suffix, occurrence_index.
  rewrite Htotal, count_of_empty, Htake.
  by rewrite (bool_decide_ext (1 < occurrences k (name_keys (objects run_sets)))
                (2 ≤ occurrences k (name_keys (objects run_sets)))) by lia.
Qed.

(** The driver, for any list of run sets: the blocks of the listings. *)
Lemma generate_object_blocks run_sets stats :
  generate run_sets stats
  = let blocks := imap (object_block run_sets) (zip run_sets stats) in
    (mjoin blocks.*1, mjoin blocks.*2).
Proof.
  unfold generate. cbv zeta. rewrite run_set_loop_blocks. cbv zeta.
  erewrite imap_ext; [done |].
  intros i [run_set stat_list] Hi.
  unfold run_set_loop_block, object_block. cbv zeta. cbn [fst snd].
  rewrite stored_key_object_key.
  rewrite (loop_suffix_object _ run_sets).
  - by rewrite provide_latex_commands_blocks.
  - intros k. apply collect_formatted_names_counts.
  - erewrite (list_fmap_ext (stored_key _) (object_key run_sets)).
    + by eapply take_fst_zip.
    + intros ? rs _. apply stored_key_object_key.
Qed.

(** *** Objects *)

Lemma objects_subseteq run_sets run_set :
  run_set ∈ objects run_sets → run_set ∈ run_sets.
Proof.
  induction run_sets as [|x run_sets IH]; [done |]. cbn [objects].
  case_bool_decide.
  - intros ?. right. auto.
  - rewrite !elem_of_cons. intros [-> | ?]; auto.
Qed.

Lemma objects_NoDup run_sets : NoDup (RunSet.id <$> objects run_sets).
Proof.
  induction run_sets as [|x run_sets IH]; [constructor |]. cbn [objects].
  case_bool_decide as Hin; [done |].
  rewrite fmap_cons. constructor; [| done].
  intros (y & Hy & Hin')%list_elem_of_fmap. apply Hin.
  apply list_elem_of_fmap. exists y. split; [done |].
  by apply objects_subseteq.
Qed.

Lemma objects_distinct run_sets :
  NoDup (RunSet.id <$> run_sets) → objects run_sets = run_sets.
Proof.
  induction run_sets as [|x run_sets IH]; [done |].
  rewrite fmap_cons, NoDup_cons. intros [Hx Hids]. cbn [objects].
  rewrite bool_decide_eq_false_2 by done. by rewrite IH.
Qed.

(** A run set of the list whose identity stands for one pair of names has
    these names as its key. *)
Lemma object_key_own run_sets run_set :
  run_set ∈ run_sets →
  (∀ x, x ∈ run_sets → RunSet.id x = RunSet.id run_set →
        name_key x = name_key run_set) →
  object_key run_sets run_set = name_key run_set.
Proof.
  intros Hin Hsame. unfold object_key.
  assert (run_set ∈ filter (λ x, RunSet.id x = RunSet.id run_set) run_sets)
    as Hfilter by (by apply list_elem_of_filter).
  destruct (filter _ run_sets) as [|y l _] eqn:Heq using rev_ind;
    [by apply elem_of_nil in Hfilter |].
  rewrite fmap_app. cbn [fmap list_fmap]. rewrite last_snoc. cbn [default].
  assert (y ∈ filter (λ x, RunSet.id x = RunSet.id run_set) run_sets) as Hy.
  { rewrite Heq. apply elem_of_app. right. by left. }
  apply list_elem_of_filter in Hy as [Hid Hy]. by apply Hsame.
Qed.

Lemma listing_keys_distinct run_sets :
  NoDup (RunSet.id <$> run_sets) → listing_keys run_sets = name_keys run_sets.
Proof.
  intros Hids. unfold listing_keys, name_keys.
  apply list_fmap_ext. intros i run_set Hi.
  apply object_key_own; [by eapply list_elem_of_lookup_2 |].
  intros x Hx Hid. f_equal.
  apply list_elem_of_lookup in Hx as [j Hj].
  assert (i = j) as ->; [| congruence].
  apply (NoDup_lookup _ i j (RunSet.id run_set) Hids).
  - by rewrite list_lookup_fmap, Hi.
  - rewrite list_lookup_fmap, Hj. simpl. by rewrite Hid.
Qed.

(** For distinct run sets the blocks are those of the resolver of the
    specification. *)
Lemma object_block_distinct run_sets stats i pair :
  NoDup (RunSet.id <$> run_sets) →
  zip run_sets stats !! i = Some pair →
  object_block run_sets i pair = run_set_block (name_keys run_sets) i pair.
Proof.
  intros Hids Hi. unfold object_block, run_set_block. cbv zeta.
  assert (object_key run_sets pair.1 = name_key pair.1) as ->.
  { pose proof (zip_lookup_fst (object_key run_sets) _ _ _ _ Hi) as Hkey.
    fold (listing_keys run_sets) in Hkey.
    rewrite listing_keys_distinct in Hkey by done.
    pose proof (zip_lookup_name_key _ _ _ _ Hi) as Hkey'. congruence. }
  unfold object_suffix, resolver_suffix.
  by rewrite objects_distinct, listing_keys_distinct by done.
Qed.

(** A key that the listings of one object alone carry counts once. *)
Lemma occurrences_one_object run_sets run_set :
  (∀ x, x ∈ run_sets → name_key x = name_key run_set →
        RunSet.id x = RunSet.id run_set) →
  occurrences (name_key run_set) (name_keys (objects run_sets)) ≤ 1.
Proof.
  intros Hone. unfold occurrences, name_keys.
  pose proof (objects_NoDup run_sets) as Hids.
  assert (∀ x, x ∈ objects run_sets → name_key x = name_key run_set →
               RunSet.id x = RunSet.id run_set) as Hone'.
  { intros x Hx. apply Hone. by apply objects_subseteq. }
  clear Hone. revert Hids Hone'. generalize (objects run_sets). intros l.
  induction l as [|x l IH]; intros Hids Hone'; [simpl; lia |].
  rewrite fmap_cons in Hids. rewrite fmap_cons.
  apply NoDup_cons in Hids as [Hx Hids].
  rewrite filter_cons.
  destruct (decide (name_key x = name_key run_set)) as [Hkey | Hkey].
  - assert (filter (λ k, k = name_key run_set) (name_key <$> l) = []) as ->;
      [| simpl; lia].
    destruct (filter _ (name_key <$> l)) as [|k ks] eqn:Hf; [done |]. exfalso.
    assert (k ∈ filter (λ k, k = name_key run_set) (name_key <$> l)) as Hk
      by (rewrite Hf; left).
    apply list_elem_of_filter in Hk as [Hk (y & -> & Hy)%list_elem_of_fmap].
    apply Hx.
    apply list_elem_of_fmap. exists y. split; [| done].
    rewrite (Hone' x) by (done || by left).
    symmetry. apply Hone'; [by right | done].
  - apply IH; [done |]. intros y Hy. apply Hone'. by right.
Qed.

(** ** The order of the leaves, for any list of run sets *)

Lemma object_key_fragments run_sets run_set :
  is_fragment (object_key run_sets run_set).1 = true
  ∧ is_fragment (object_key run_sets run_set).2 = true.
Proof.
  unfold object_key.
  destruct (last _) as [key|] eqn:Hlast; [| done]. cbn [default].
  apply last_Some_elem_of in Hlast.
  apply list_elem_of_fmap in Hlast as (x & -> & _).
  apply name_key_fragments.
Qed.

Lemma object_suffix_fragment run_sets i k s :
  listing_keys run_sets !! i = Some k → object_suffix run_sets i k = Some s →
  s ≠ EmptyString ∧ is_fragment s = true.
Proof.
  intros Hi. unfold object_suffix. case_bool_decide; [| done].
  intros [= <-]. split.
  - apply number_to_roman_string_nonempty.
    apply occurrence_index_pos in Hi. lia.
  - apply number_to_roman_string_fragment.
Qed.

Lemma format_object_benchmark_name run_sets i key :
  listing_keys run_sets !! i = Some key → is_fragment key.1 = true →
  format_command_part (add_suffix key.1 (object_suffix run_sets i key))
  = add_suffix key.1 (object_suffix run_sets i key).
Proof.
  intros Hi Hfrag.
  destruct (object_suffix run_sets i key) as [s|] eqn:Hs; simpl.
  - destruct (object_suffix_fragment run_sets i key s Hi Hs) as [Hne Hfs].
    rewrite format_command_part_suffixed by done.
    by rewrite extract_letters_of_fragment.
  - by apply format_command_part_of_fragment.
Qed.

Lemma named_command_object run_sets i run_set titles j title :
  listing_keys run_sets !! i = Some (object_key run_sets run_set) →
  titles !! j = Some title →
  set_command_part
    (LatexCommand.init
       (add_suffix (object_key run_sets run_set).1
          (object_suffix run_sets i (object_key run_sets run_set)))
       (object_key run_sets run_set).2)
    part_column_title (add_suffix title (resolver_suffix titles j title))
  = named_command (object_names run_sets i run_set)
      (resolved_column_title titles j title).
Proof.
  intros Hi Hj. destruct (object_key_fragments run_sets run_set) as [Hb Hr].
  unfold named_command, object_names. cbv zeta.
  cbn [set_command_part LatexCommand.init benchmark_name runset_name
       column_category column_subcategory stat_type value fst snd].
  rewrite format_object_benchmark_name by done.
  rewrite format_resolved_column_title by done.
  by rewrite (format_command_part_of_fragment _ Hr).
Qed.

(** The commands, for any list of run sets, are the leaves in the order of
    the input. *)
Lemma generate_leaves_in_order run_sets stats :
  (generate run_sets stats).1 = leaves_in_order run_sets stats.
Proof.
  rewrite generate_object_blocks. cbv zeta. cbn [fst].
  rewrite fst_imap. unfold leaves_in_order. f_equal.
  apply imap_ext. intros i pair Hi.
  unfold object_block. cbv zeta. cbn [fst].
  rewrite fst_imap. f_equal.
  apply imap_ext. intros j column_pair Hj.
  pose proof (zip_lookup_fst select_column_name _ _ _ _ Hj) as Htitle.
  rewrite (proj1 (column_block_commands _ _ _ _ Htitle)).
  change (select_column_name <$> RunSet.columns pair.1)
    with (column_titles pair.1) in *.
  rewrite (named_command_object run_sets i pair.1
             (column_titles pair.1) j (select_column_name column_pair.1));
    [done | | done].
  apply (zip_lookup_fst (object_key run_sets) _ _ _ _ Hi).
Qed.

(** The chunks written, as one text. *)
Lemma text_of_lines (leaves : list LatexCommand.t) :
  text_of (leaves ≫= λ leaf, [to_latex_raw leaf; "%" +:+ Py.newline])
  = Py.join ((λ leaf, to_latex_raw leaf +:+ "%" +:+ Py.newline) <$> leaves).
Proof.
  unfold text_of. induction leaves as [|leaf leaves IH]; [done |].
  rewrite bind_cons, fmap_cons, py_join_app, IH.
  change (Py.join [to_latex_raw leaf; "%" +:+ Py.newline])
    with (to_latex_raw leaf +:+ ("%" +:+ Py.newline) +:+ EmptyString).
  change (Py.join (?w :: ?ws)) with (w +:+ Py.join ws).
  by rewrite append_nil_r, append_assoc.
Qed.

(** ** The identities of the run sets do not show *)

Lemma filter_keys_pattern run_sets run_sets' run_set run_set' :
  (λ b, bool_decide (RunSet.id run_set' = RunSet.id b)) <$> run_sets'
  = (λ b, bool_decide (RunSet.id run_set = RunSet.id b)) <$> run_sets →
  name_keys run_sets' = name_keys run_sets →
  name_key <$> filter (λ x, RunSet.id x = RunSet.id run_set') run_sets'
  = name_key <$> filter (λ x, RunSet.id x = RunSet.id run_set) run_sets.
Proof.
  unfold name_keys. revert run_sets'.
  induction run_sets as [|a run_sets IH]; intros [|a' run_sets']; try done.
  rewrite !fmap_cons. intros [= Hrow Hrows] Hall.
  pose proof (f_equal head Hall) as Hkey. cbn [head] in Hkey.
  apply (inj Some) in Hkey.
  pose proof (f_equal tail Hall) as Hkeys. cbn [tail] in Hkeys. clear Hall.
  rewrite !filter_cons.
  destruct (decide (RunSet.id a' = RunSet.id run_set')) as [Hid' | Hid'],
    (decide (RunSet.id a = RunSet.id run_set)) as [Hid | Hid].
  - rewrite !fmap_cons, Hkey. f_equal. by apply IH.
  - rewrite bool_decide_eq_true_2, bool_decide_eq_false_2 in Hrow by done.
    done.
  - rewrite bool_decide_eq_false_2, bool_decide_eq_true_2 in Hrow by done.
    done.
  - by apply IH.
Qed.

Lemma identity_pattern_lookup run_sets i run_set :
  run_sets !! i = Some run_set →
  identity_pattern run_sets !! i
  = Some ((λ b, bool_decide (RunSet.id run_set = RunSet.id b)) <$> run_sets).
Proof.
  intros Hi. unfold identity_pattern. by rewrite list_lookup_fmap, Hi.
Qed.

Lemma object_key_pattern run_sets run_sets' i run_set run_set' :
  identity_pattern run_sets' = identity_pattern run_sets →
  name_keys run_sets' = name_keys run_sets →
  run_sets !! i = Some run_set → run_sets' !! i = Some run_set' →
  object_key run_sets' run_set' = object_key run_sets run_set.
Proof.
  intros Hpattern Hkeys Hi Hi'. unfold object_key.
  rewrite (filter_keys_pattern run_sets run_sets' run_set run_set');
    [done | | done].
  apply (f_equal (.!! i)) in Hpattern.
  rewrite (identity_pattern_lookup _ _ _ Hi) in Hpattern.
  rewrite (identity_pattern_lookup _ _ _ Hi') in Hpattern.
  by injection Hpattern.
Qed.

Lemma listing_keys_pattern run_sets run_sets' :
  identity_pattern run_sets' = identity_pattern run_sets →
  name_keys run_sets' = name_keys run_sets →
  listing_keys run_sets' = listing_keys run_sets.
Proof.
  intros Hpattern Hkeys. apply list_eq. intros i. unfold listing_keys.
  rewrite !list_lookup_fmap.
  pose proof (f_equal (.!! i) Hkeys) as Hi. unfold name_keys in Hi.
  rewrite !list_lookup_fmap in Hi.
  destruct (run_sets !! i) as [run_set|] eqn:Hrs,
    (run_sets' !! i) as [run_set'|] eqn:Hrs'; try done.
  simpl. f_equal. by eapply object_key_pattern.
Qed.

Lemma elem_of_ids_row run_set (run_sets : list RunSet.t) :
  RunSet.id run_set ∈ RunSet.id <$> run_sets
  ↔ true ∈ (λ b, bool_decide (RunSet.id run_set = RunSet.id b)) <$> run_sets.
Proof.
  rewrite !list_elem_of_fmap. split.
  - intros (b & Hid & Hb). exists b. by rewrite bool_decide_eq_true_2.
  - intros (b & Hid & Hb). exists b. split; [| done].
    symmetry in Hid. by apply bool_decide_eq_true_1 in Hid.
Qed.

Lemma objects_pattern run_sets run_sets' :
  identity_pattern run_sets' = identity_pattern run_sets →
  name_keys run_sets' = name_keys run_sets →
  name_keys (objects run_sets') = name_keys (objects run_sets).
Proof.
  unfold name_keys. revert run_sets'.
  induction run_sets as [|a run_sets IH]; intros [|a' run_sets']; try done.
  unfold identity_pattern. rewrite !fmap_cons.
  intros [= _ Hrow Hrows] Hall.
  pose proof (f_equal head Hall) as Hkey. cbn [head] in Hkey.
  apply (inj Some) in Hkey.
  pose proof (f_equal tail Hall) as Hkeys. cbn [tail] in Hkeys. clear Hall.
  assert (identity_pattern run_sets' = identity_pattern run_sets) as Hpattern.
  { apply (f_equal (fmap (drop 1))) in Hrows.
    by rewrite <- !list_fmap_compose in Hrows. }
  cbn [objects].
  rewrite (bool_decide_ext _ _ (elem_of_ids_row a' run_sets')), Hrow.
  rewrite <- (bool_decide_ext _ _ (elem_of_ids_row a run_sets)).
  case_bool_decide; [by apply IH |].
  rewrite !fmap_cons, Hkey. f_equal. by apply IH.
Qed.

Lemma object_suffix_pattern run_sets run_sets' i k :
  identity_pattern run_sets' = identity_pattern run_sets →
  name_keys run_sets' = name_keys run_sets →
  object_suffix run_sets' i k = object_suffix run_sets i k.
Proof.
  intros Hpattern Hkeys. unfold object_suffix.
  by rewrite (objects_pattern run_sets run_sets'),
    (listing_keys_pattern run_sets run_sets').
Qed.

(** Two lists of run sets that hold the same, and in which the same
    positions are one object, give the same commands and warnings. *)
Lemma generate_pattern run_sets run_sets' stats :
  identity_pattern run_sets' = identity_pattern run_sets →
  content <$> run_sets' = content <$> run_sets →
  generate run_sets' stats = generate run_sets stats.
Proof.
  intros Hpattern Hcontent.
  pose proof (name_keys_content _ _ Hcontent) as Hkeys.
  rewrite !generate_object_blocks. cbv zeta.
  assert (imap (object_block run_sets') (zip run_sets' stats)
          = imap (object_block run_sets) (zip run_sets stats)) as ->; [| done].
  apply list_eq. intros i. rewrite !list_lookup_imap, !lookup_zip_with.
  pose proof (f_equal (.!! i) Hcontent) as Hi.
  rewrite !list_lookup_fmap in Hi.
  destruct (run_sets !! i) as [run_set|] eqn:Hrs,
    (run_sets' !! i) as [run_set'|] eqn:Hrs'; simpl in Hi; try done.
  apply (inj Some) in Hi.
  destruct (stats !! i) as [stat_list|]; [| done]. simpl. f_equal.
  unfold object_block. cbv zeta. cbn [fst snd].
  rewrite (object_key_pattern run_sets run_sets' i run_set run_set') by done.
  rewrite (object_suffix_pattern run_sets run_sets') by done.
  unfold content in Hi. injection Hi as Hb Hr Hc.
  unfold column_titles. by rewrite Hc.
Qed.

(** * The claims *)

(** A non-empty label of digits 1-9 becomes the numeral of the number it
    writes. *)
Lemma format_command_part_digits digits :
  digits ≠ EmptyString → string_forall Py.is_digit_1_9 digits = true →
  format_command_part digits = util.number_to_roman_string (Py.int digits).
Proof.
  intros Hne Hd. rewrite format_command_part_extract, sub_roman_digits by done.
  apply extract_letters_of_fragment, number_to_roman_string_fragment.
Qed.

(** C5. The sanitizer maps the label "7" to the Roman numeral of 7, a
    non-empty fragment of letters; the label "0" is not replaced by a
    numeral (no label with a digit 0 is) and goes through the extraction of
    letters, which leaves the empty fragment. *)
Theorem C5_numeric_labels :
  format_command_part "7" = util.number_to_roman_string 7
  ∧ format_command_part "7" = "VII"
  ∧ format_command_part "7" ≠ EmptyString
  ∧ letters_only (format_command_part "7") = true
  ∧ sub_roman "0" = "0"
  ∧ format_command_part "0" = extract_letters "0"
  ∧ format_command_part "0" = EmptyString
  ∧ ∀ s t, sub_roman (s +:+ String "0" t) = s +:+ String "0" t.
Proof.
  repeat (split; [by vm_compute |]).
  intros s t. by apply sub_roman_other.
Qed.


(** The category and the subcategory of a leaf are those of its statistic. *)
Lemma kind_leaf_category column command kind :
  column_category (kind_leaf column command kind) = column_category command
  ∧ column_subcategory (kind_leaf column command kind)
    = column_subcategory command.
Proof. done. Qed.

Lemma truthy_Some s : s ≠ EmptyString → Py.truthy (Some s) = true.
Proof. by destruct s. Qed.

(** C7. For a column with a non-empty unit the walker yields, for every
    statistic it processes, the leaves of the present kinds and then exactly
    one more leaf: its kind is "unit", its value is the unit text as it is,
    and its category and subcategory are those of the statistic's other
    leaves. *)
Theorem C7_unit_leaf init_command column unit_text stat_name stat_value
    column_statistic :
  Column.unit column = Some unit_text → unit_text ≠ EmptyString →
  let command := stat_command init_command stat_name in
  stat_commands init_command column stat_name stat_value
  = (kind_leaf column command <$> present stat_value)
    ++ [unit_leaf column command]
  ∧ stat_type (unit_leaf column command) = format_command_part "unit"
  ∧ stat_type (unit_leaf column command) = "Unit"
  ∧ value (unit_leaf column command) = Some unit_text
  ∧ to_latex_raw (unit_leaf column command)
    = repr (unit_leaf column command) +:+ brace unit_text
  ∧ Forall (λ leaf,
        column_category leaf = column_category (unit_leaf column command)
        ∧ column_subcategory leaf
          = column_subcategory (unit_leaf column command))
      (stat_commands init_command column stat_name stat_value)
  ∧ _column_statistic_to_latex_command init_command column_statistic column
    = present (default [] column_statistic) ≫= λ stat,
        (kind_leaf column (stat_command init_command stat.1) <$> present stat.2)
        ++ [unit_leaf column (stat_command init_command stat.1)].
Proof.
  intros Hunit Hne command.
  assert (Py.truthy (Column.unit column) = true) as Htruthy.
  { rewrite Hunit. by apply truthy_Some. }
  assert (stat_commands init_command column stat_name stat_value
          = (kind_leaf column command <$> present stat_value)
            ++ [unit_leaf column command]) as Hleaves.
  { rewrite stat_commands_leaves. unfold stat_leaves. cbn [fst snd].
    by rewrite Htruthy. }
  split; [exact Hleaves |].
  split; [done |]. split; [done |].
  split; [unfold unit_leaf; simpl; by rewrite Hunit |].
  split.
  { unfold to_latex_raw, _get_command_formatted, unit_leaf. cbv zeta.
    cbn [value set_command_value]. rewrite Hunit.
    unfold default, from_option, id. by rewrite (truthy_Some _ Hne). }
  split.
  { rewrite Hleaves. apply Forall_app. split.
    - apply Forall_fmap, Forall_true. done.
    - by constructor. }
  rewrite column_statistic_to_latex_command_leaves. unfold record_leaves.
  apply list_bind_ext; [| done]. intros stat.
  unfold stat_leaves. by rewrite Htruthy.
Qed.

(** The unit leaves of a sample column whose unit is "s". *)
Lemma C7_unit_leaf_witness :
  Column.unit (sample.column "cputime" (Some "s")) = Some "s"
  ∧ to_latex_raw
      (unit_leaf (sample.column "cputime" (Some "s"))
         (stat_command sample.command "correct_true"))
    = repr
        (unit_leaf (sample.column "cputime" (Some "s"))
           (stat_command sample.command "correct_true"))
      +:+ brace "s".
Proof.
  split; [done |].
  apply (C7_unit_leaf sample.command (sample.column "cputime" (Some "s")) "s"
           "correct_true" sample.stat_value (Some sample.record));
    [reflexivity | discriminate].
Defined.

(** C10. A present statistic all of whose kinds are absent still gets the
    unit leaf of a column with a non-empty unit, with the category and the
    subcategory of that statistic; the unit leaf needs no present kind. *)
Theorem C10_unit_leaf_without_kinds init_command column unit_text stat_name
    stat_value :
  Column.unit column = Some unit_text → unit_text ≠ EmptyString →
  Forall (λ kind, kind.2 = None) stat_value →
  let leaf := unit_leaf column (stat_command init_command stat_name) in
  stat_commands init_command column stat_name stat_value = [leaf]
  ∧ _column_statistic_to_latex_command init_command
      (Some [(stat_name, Some stat_value)]) column = [leaf]
  ∧ stat_type leaf = "Unit"
  ∧ value leaf = Some unit_text
  ∧ column_category leaf
    = column_category (stat_command init_command stat_name)
  ∧ column_subcategory leaf
    = column_subcategory (stat_command init_command stat_name).
Proof.
  intros Hunit Hne Habsent leaf.
  assert (present stat_value = []) as Hnone.
  { induction Habsent as [|[k v] items Hv _ IH]; [done |].
    simpl in Hv. subst v. by rewrite present_cons_None. }
  assert (stat_commands init_command column stat_name stat_value = [leaf])
    as Hleaves.
  { rewrite stat_commands_leaves. unfold stat_leaves. cbn [fst snd].
    rewrite Hnone, Hunit, (truthy_Some _ Hne). done. }
  split; [exact Hleaves |].
  split.
  { cbn [_column_statistic_to_latex_command column_statistic_loop].
    by rewrite Hleaves. }
  split_and!; try done. unfold leaf, unit_leaf. simpl. by rewrite Hunit.
Qed.

(** The statistic "total" of a sample column, with every kind absent. *)
Lemma C10_unit_leaf_without_kinds_witness :
  Forall (λ kind : string * option PyValue, kind.2 = None) sample.empty_stat_value
  ∧ stat_commands sample.command (sample.column "cputime" (Some "s")) "total"
      sample.empty_stat_value
    = [unit_leaf (sample.column "cputime" (Some "s"))
         (stat_command sample.command "total")].
Proof.
  assert (Forall (λ kind : string * option PyValue, kind.2 = None)
            sample.empty_stat_value) as Habsent
    by (repeat constructor).
  split; [exact Habsent |].
  apply (C10_unit_leaf_without_kinds sample.command
           (sample.column "cputime" (Some "s")) "s" "total"
           sample.empty_stat_value); [reflexivity | discriminate | exact Habsent].
Defined.

Lemma sample_ids_four : NoDup (RunSet.id <$> sample.four).
Proof. apply (bool_decide_unpack _). by vm_compute. Qed.

(** Claim C2 as it is stated fails: for two run sets named alike the
    numerals end the benchmark-name fragments, and the run-set-name
    fragments stay as they are, where the claim has the pairs (A, RI) and
    (A, RII). *)
Lemma C2_counterexample :
  name_keys sample.twins = [("A", "R"); ("A", "R")]
  ∧ names_of <$> (generate sample.twins sample.twin_stats).1
    = [("AI", "R"); ("AII", "R")]
  ∧ names_of <$> (generate sample.twins sample.twin_stats).1
    ≠ [("A", "RI"); ("A", "RII")]
  ∧ (generate sample.twins sample.twin_stats).2
    = [DuplicatedNames "AR" "I"; DuplicatedNames "AR" "II"].
Proof. split_and!; by vm_compute. Qed.

(** C2, amended. Whenever the resolver suffixes a duplicated key, the
    numeral ends the benchmark-name fragment at the level of the run sets
    (the first fragment of the pair; the run-set-name fragment is the
    sanitized run-set name as it is), and it ends the column-title fragment
    at the level of the columns. *)
Theorem C2_suffix_ends_benchmark_name run_sets stats leaf :
  NoDup (RunSet.id <$> run_sets) →
  leaf ∈ (generate run_sets stats).1 →
  ∃ i pair j column_pair,
    zip run_sets stats !! i = Some pair
    ∧ zip (RunSet.columns pair.1) pair.2 !! j = Some column_pair
    ∧ benchmark_name leaf
      = add_suffix (format_command_part (RunSet.benchmarkname pair.1))
          (resolver_suffix (name_keys run_sets) i (name_key pair.1))
    ∧ runset_name leaf = format_command_part (RunSet.niceName pair.1)
    ∧ column_title leaf
      = match resolver_suffix (column_titles pair.1) j
                (select_column_name column_pair.1) with
        | Some suffix =>
            extract_letters (select_column_name column_pair.1) +:+ suffix
        | None => format_command_part (select_column_name column_pair.1)
        end.
Proof.
  intros Hids (i & pair & Hi & Hleaf)%generate_commands; [| done].
  apply run_set_block_commands in Hleaf
    as (Hnames & j & column_pair & Hj & Htitle & _);
    [| by eapply zip_lookup_name_key].
  exists i, pair, j, column_pair.
  injection Hnames as Hb Hr. done.
Qed.

(** The second of two run sets named alike. *)
Lemma C2_suffix_ends_benchmark_name_witness :
  ∃ i pair j column_pair,
    zip sample.twins sample.twin_stats !! i = Some pair
    ∧ zip (RunSet.columns pair.1) pair.2 !! j = Some column_pair
    ∧ "AII"
      = add_suffix (format_command_part (RunSet.benchmarkname pair.1))
          (resolver_suffix (name_keys sample.twins) i (name_key pair.1))
    ∧ "R" = format_command_part (RunSet.niceName pair.1)
    ∧ "X"
      = match resolver_suffix (column_titles pair.1) j
                (select_column_name column_pair.1) with
        | Some suffix =>
            extract_letters (select_column_name column_pair.1) +:+ suffix
        | None => format_command_part (select_column_name column_pair.1)
        end.
Proof.
  apply (C2_suffix_ends_benchmark_name sample.twins sample.twin_stats
           {| benchmark_name := "AII"; runset_name := "R"; column_title := "X";
              column_category := "Total"; column_subcategory := "";
              stat_type := "Sum"; value := Some "1" |}).
  - apply (bool_decide_unpack _). by vm_compute.
  - vm_compute. apply list_elem_of_further, list_elem_of_here.
Defined.

(** Claim C3 fails on the code: the titles "cpu time" and "cpu-time" differ
    as they are and sanitize to one fragment, and the generator counts them
    as they are. It logs no warning, adds no suffix, and writes two
    commands with one identifier. *)
Theorem C3_titles_counted_unsanitized :
  column_titles sample.alike = ["cpu time"; "cpu-time"]
  ∧ format_command_part <$> column_titles sample.alike = ["CpuTime"; "CpuTime"]
  ∧ (generate [sample.alike] sample.alike_stats).2 = []
  ∧ emitted_identifiers [sample.alike] sample.alike_stats
    = [ ["Bench"; "Tool"; "CpuTime"; "Total"; ""; "Sum"];
        ["Bench"; "Tool"; "CpuTime"; "Total"; ""; "Sum"] ].
Proof. split_and!; by vm_compute. Qed.

Lemma zip_take_l {A B} (l : list A) (k : list B) :
  zip (take (length k) l) k = zip l k.
Proof.
  revert k. induction l as [|x l IH]; intros [|y k]; simpl; try done.
  by rewrite IH.
Qed.

(** Claim C4 fails on the code: the run set listed twice is one object, so
    the table of formatted names has one entry for it and its key counts
    once. The key occurs twice in the sequence, and the resolver of the
    specification gives its occurrences the numerals of 1 and 2; the
    generator adds no suffix and logs no warning, and writes the same
    identifier twice. The loop over the columns counts every listing: two
    columns titled alike get their numerals and warnings. For four distinct
    run sets with the keys A, A, B, A the generator gives AI, AII, B, AIII. *)
Theorem C4_listed_twice_counted_once :
  RunSet.id <$> sample3.listed_twice = [0; 0]
  ∧ name_keys sample3.listed_twice = [("A", "R"); ("A", "R")]
  ∧ imap (resolved_names (name_keys sample3.listed_twice))
      (name_keys sample3.listed_twice)
    = [("AI", "R"); ("AII", "R")]
  ∧ names_of <$> (generate sample3.listed_twice sample.twin_stats).1
    = [("A", "R"); ("A", "R")]
  ∧ (generate sample3.listed_twice sample.twin_stats).2 = []
  ∧ emitted_identifiers sample3.listed_twice sample.twin_stats
    = [ ["A"; "R"; "X"; "Total"; ""; "Sum"];
        ["A"; "R"; "X"; "Total"; ""; "Sum"] ]
  ∧ column_title
    <$> (_provide_latex_commands sample2.two_columns sample2.two_records
           sample.command).1
    = ["XI"; "XII"]
  ∧ (_provide_latex_commands sample2.two_columns sample2.two_records
       sample.command).2
    = [DuplicatedColumn "x" "I"; DuplicatedColumn "x" "II"]
  ∧ names_of <$> (generate sample.four sample.four_stats).1
    = [("AI", "R"); ("AII", "R"); ("B", "R"); ("AIII", "R")]
  ∧ (generate sample.four sample.four_stats).2
    = [ DuplicatedNames "AR" "I"; DuplicatedNames "AR" "II";
        DuplicatedNames "AR" "III" ].
Proof. split_and!; by vm_compute. Qed.

(** C9. When the statistics are fewer than the run sets, or a run set's
    records fewer than its columns, the generator still returns: the pairing
    stops with the shorter sequence, and the run sets and columns beyond it
    have no commands and no warnings of their own. *)
Theorem C9_zip_truncates run_sets stats run_set stat_list current_command :
  NoDup (RunSet.id <$> run_sets) →
  generate run_sets stats
  = (let blocks :=
       imap (run_set_block (name_keys run_sets))
         (zip (take (length stats) run_sets) stats) in
     (mjoin blocks.*1, mjoin blocks.*2))
  ∧ length (zip (take (length stats) run_sets) stats)
    = min (length run_sets) (length stats)
  ∧ _provide_latex_commands run_set stat_list current_command
    = (let blocks :=
         imap (column_block (column_titles run_set) current_command)
           (zip (take (length stat_list) (RunSet.columns run_set)) stat_list) in
       (mjoin blocks.*1, mjoin blocks.*2))
  ∧ length (zip (take (length stat_list) (RunSet.columns run_set)) stat_list)
    = min (length (RunSet.columns run_set)) (length stat_list)
  ∧ (∀ out, write_tex_command_table out run_sets [] = (out ++ [TEX_HEADER], []))
  ∧ _provide_latex_commands run_set [] current_command = ([], []).
Proof.
  intros Hids. split_and!.
  - rewrite zip_take_l. by apply generate_blocks.
  - by rewrite zip_take_l, length_zip.
  - rewrite zip_take_l. apply provide_latex_commands_blocks.
  - by rewrite zip_take_l, length_zip.
  - intros out. unfold write_tex_command_table.
    rewrite generate_blocks by done.
    by destruct run_sets.
  - rewrite provide_latex_commands_blocks.
    by destruct (RunSet.columns run_set).
Qed.

(** Four run sets and statistics for two of them; two columns and a record
    for one of them. *)
Lemma C9_zip_truncates_witness :
  names_of <$> (generate sample.four sample.twin_stats).1
  = [("AI", "R"); ("AII", "R")]
  ∧ (generate sample.four sample.twin_stats).2
    = [DuplicatedNames "AR" "I"; DuplicatedNames "AR" "II"]
  ∧ length (_provide_latex_commands sample.alike [Some sample.small_record]
              sample.command).1 = 1.
Proof.
  pose proof (C9_zip_truncates sample.four sample.twin_stats sample.alike
                [Some sample.small_record] sample.command sample_ids_four)
    as (Hgen & _ & Hcol & _).
  rewrite Hgen, Hcol. split_and!; by vm_compute.
Defined.

(** Claim C1 fails on the code: of three distinct run sets, two share their
    names and the third is named as the first is once it has its suffix.
    The generator warns about the two, gives them the numerals of 1 and 2,
    and does not look at the third: the first and the third are written
    under one identifier. *)
Theorem C1_suffixed_name_collides :
  NoDup (RunSet.id <$> sample.clash)
  ∧ name_keys sample.clash = [("A", "R"); ("A", "R"); ("AI", "R")]
  ∧ (generate sample.clash sample.clash_stats).2
    = [DuplicatedNames "AR" "I"; DuplicatedNames "AR" "II"]
  ∧ emitted_identifiers sample.clash sample.clash_stats
    = [ ["AI"; "R"; "X"; "Total"; ""; "Sum"];
        ["AII"; "R"; "X"; "Total"; ""; "Sum"];
        ["AI"; "R"; "X"; "Total"; ""; "Sum"] ]
  ∧ ¬ NoDup (emitted_identifiers sample.clash sample.clash_stats).
Proof.
  split_and!; try (by vm_compute); apply (bool_decide_unpack _); by vm_compute.
Qed.

(** C8. The commands are written in the order of the input: the run sets in
    their order, then the columns of each, then the statistic names of each
    record, then the kinds of each statistic, one line and one line end per
    leaf after the header. The text is a function of the input: it comes
    after whatever the sink held, and two lists of run sets that hold the
    same and in which the same positions are one object, whatever the
    identities are, give the same chunks and the same warnings. *)
Theorem C8_order_and_determinism run_sets run_sets' stats :
  (generate run_sets stats).1 = leaves_in_order run_sets stats
  ∧ (∀ out,
       (write_tex_command_table out run_sets stats).1
       = out ++ TEX_HEADER
           :: (leaves_in_order run_sets stats
               ≫= λ leaf, [to_latex_raw leaf; "%" +:+ Py.newline]))
  ∧ (∀ out,
       text_of (write_tex_command_table out run_sets stats).1
       = text_of out +:+ TEX_HEADER
         +:+ Py.join ((λ leaf, to_latex_raw leaf +:+ "%" +:+ Py.newline)
                      <$> leaves_in_order run_sets stats))
  ∧ (identity_pattern run_sets' = identity_pattern run_sets →
     content <$> run_sets' = content <$> run_sets →
     ∀ out, write_tex_command_table out run_sets' stats
            = write_tex_command_table out run_sets stats).
Proof.
  pose proof (generate_leaves_in_order run_sets stats) as Horder.
  assert (∀ out,
            (write_tex_command_table out run_sets stats).1
            = out ++ TEX_HEADER
                :: (leaves_in_order run_sets stats
                    ≫= λ leaf, [to_latex_raw leaf; "%" +:+ Py.newline]))
    as Hwritten.
  { intros out. unfold write_tex_command_table. rewrite <- Horder.
    by destruct (generate run_sets stats). }
  split_and!; [done | done | |].
  - intros out. rewrite Hwritten. unfold text_of.
    change (out ++ TEX_HEADER :: ?chunks) with (out ++ [TEX_HEADER] ++ chunks).
    rewrite !py_join_app, py_join_singleton.
    by rewrite <- text_of_lines.
  - intros Hpattern Hcontent out. unfold write_tex_command_table.
    by rewrite (generate_pattern run_sets run_sets' stats).
Qed.

(** A run set listed twice around another one, as the objects 0 and 2 and
    as the objects 9 and 5. *)
Lemma C8_order_and_determinism_witness :
  write_tex_command_table [] sample3.listed_around_elsewhere sample3.three_stats
  = write_tex_command_table [] sample3.listed_around sample3.three_stats
  ∧ identifier <$> (generate sample3.listed_around sample3.three_stats).1
    = [ ["A"; "R"; "X"; "Total"; ""; "Sum"];
        ["B"; "R"; "X"; "Total"; ""; "Sum"];
        ["A"; "R"; "X"; "Total"; ""; "Sum"] ].
Proof.
  pose proof (C8_order_and_determinism sample3.listed_around
                sample3.listed_around_elsewhere sample3.three_stats)
    as (Horder & _ & _ & Hsame).
  split.
  - apply Hsame; reflexivity.
  - rewrite Horder. by vm_compute.
Defined.

(** * Further properties *)

(** ** Splitting and the sanitizer *)

Lemma split_on_cons_sep is_sep c s :
  is_sep c = true →
  Py.split_on is_sep (String c s) = EmptyString :: Py.split_on is_sep s.
Proof. intros Hc. simpl. by rewrite Hc. Qed.

(** A separator splits what stands before it from what follows it. *)
Lemma split_on_app_sep is_sep s c t :
  is_sep c = true →
  Py.split_on is_sep (s +:+ String c t)
  = Py.split_on is_sep s ++ Py.split_on is_sep t.
Proof.
  intros Hc. induction s as [|d s IH].
  - rewrite append_nil_l. by apply split_on_cons_sep.
  - rewrite append_cons. simpl. rewrite IH.
    destruct (is_sep d); [done |].
    destruct (split_on_snoc is_sep s) as (ws & w & ->).
    by destruct ws.
Qed.

Lemma extract_letters_app_sep s c t :
  Py.is_ascii_letter c = false →
  extract_letters (s +:+ String c t) = extract_letters s +:+ extract_letters t.
Proof.
  intros Hc. unfold extract_letters, split_non_letters.
  rewrite split_on_app_sep by by rewrite Hc.
  by rewrite fmap_app, py_join_app.
Qed.

Lemma string_map_app f s t :
  string_map f (s +:+ t) = string_map f s +:+ string_map f t.
Proof.
  induction s as [|c s IH]; [done |].
  rewrite append_cons. simpl. by rewrite IH, append_cons.
Qed.

Lemma to_lower_upper c : to_lower (Py.upper c) = to_lower c.
Proof. revert c. intros [[] [] [] [] [] [] [] []]; by vm_compute. Qed.

Lemma string_map_lower_cap w :
  string_map to_lower (util.cap_first_letter w) = string_map to_lower w.
Proof. destruct w as [|c w]; [done |]. simpl. by rewrite to_lower_upper. Qed.

Lemma string_map_lower_join_cap ws :
  string_map to_lower (Py.join (util.cap_first_letter <$> ws))
  = string_map to_lower (Py.join ws).
Proof.
  induction ws as [|w ws IH]; [done |].
  change (Py.join (util.cap_first_letter <$> w :: ws))
    with (util.cap_first_letter w +:+ Py.join (util.cap_first_letter <$> ws)).
  change (Py.join (w :: ws)) with (w +:+ Py.join ws).
  by rewrite !string_map_app, IH, string_map_lower_cap.
Qed.

(** The pieces between the non-letters, in a row, are the letters. *)
Lemma join_split_non_letters name :
  Py.join (split_non_letters name) = string_filter Py.is_ascii_letter name.
Proof.
  unfold split_non_letters. induction name as [|c name IH]; [done |].
  simpl. destruct (Py.is_ascii_letter c); simpl.
  - destruct (split_on_snoc (λ c, negb (Py.is_ascii_letter c)) name)
      as (ws & w & Heq).
    rewrite Heq in *. rewrite <- IH. by destruct ws.
  - by rewrite <- IH.
Qed.

Lemma extract_letters_lower name :
  string_map to_lower (extract_letters name)
  = string_map to_lower (string_filter Py.is_ascii_letter name).
Proof.
  unfold extract_letters.
  by rewrite string_map_lower_join_cap, join_split_non_letters.
Qed.

Lemma span_1_9_digits_all s :
  string_forall Py.is_digit_1_9 (span_1_9 s).1 = true.
Proof.
  induction s as [|c s IH]; [done |]. simpl.
  destruct (Py.is_digit_1_9 c) eqn:Hc; [| done].
  destruct (span_1_9 s) as [digits rest]. simpl in *. by rewrite Hc, IH.
Qed.

(** Capitalising the first letter of a label beforehand changes nothing. *)
Lemma format_command_part_cap name :
  format_command_part (util.cap_first_letter name) = format_command_part name.
Proof.
  destruct name as [|c name]; [done |].
  destruct (Py.is_ascii_letter c) eqn:Hc.
  - assert (Py.is_ascii_letter (Py.upper c) = true) as Hu
      by by apply upper_is_letter, upper_of_letter.
    assert (∀ d, Py.is_ascii_letter d = true →
              sub_roman (String d name) = String d name) as Hsub.
    { intros d Hd. unfold sub_roman. simpl.
      destruct (Py.is_digit_1_9 d) eqn:Hdigit; [| done].
      apply digit_not_letter in Hdigit. congruence. }
    rewrite !format_command_part_extract. simpl util.cap_first_letter.
    rewrite !Hsub by done.
    unfold extract_letters, split_non_letters. simpl. rewrite Hc, Hu. simpl.
    destruct (Py.split_on _ name) as [|w ws]; simpl;
      by rewrite (upper_of_upper (Py.upper c)) by by apply upper_of_letter.
  - simpl. f_equal. f_equal. revert Hc. clear.
    revert c. intros [[] [] [] [] [] [] [] []]; by vm_compute.
Qed.

Lemma format_command_part_space s t :
  format_command_part (s +:+ String " " t)
  = extract_letters s +:+ extract_letters t.
Proof.
  rewrite format_command_part_extract, sub_roman_other by done.
  by apply extract_letters_app_sep.
Qed.

(** *** Labels of digits *)

Lemma int_from_le acc s : (acc ≤ Py.int_from acc s)%N.
Proof.
  revert acc. induction s as [|c s IH]; intros acc; simpl; [lia |].
  etrans; [| apply IH]. lia.
Qed.

Lemma int_digits_pos digits :
  digits ≠ EmptyString → string_forall Py.is_digit_1_9 digits = true →
  Py.int digits ≠ 0%N.
Proof.
  destruct digits as [|c s]; [done |]. intros _.
  cbn [string_forall]. rewrite andb_true_iff. intros [Hc _].
  change (Py.int (String c s))
    with (Py.int_from (0 * 10 + (N_of_ascii c - 48)) s).
  pose proof (int_from_le (0 * 10 + (N_of_ascii c - 48)) s) as Hle.
  unfold Py.is_digit_1_9 in Hc. cbv zeta in Hc.
  apply andb_true_iff in Hc as [Hlo%N.leb_le _]. lia.
Qed.

(** A label of digits 1-9, followed by nothing or by one line feed: the
    digits are replaced by their numeral, and what follows them stays. *)
Lemma sub_roman_label digits rest :
  digits ≠ EmptyString → string_forall Py.is_digit_1_9 digits = true →
  rest = EmptyString ∨ rest = Py.newline →
  sub_roman (digits +:+ rest)
  = util.number_to_roman_string (Py.int digits) +:+ rest.
Proof.
  intros Hne Hdigits Hrest. unfold sub_roman.
  rewrite span_1_9_rest_app by (by destruct Hrest as [-> | ->]).
  rewrite (span_1_9_digits _ Hdigits). cbn [fst snd].
  rewrite append_nil_l. by rewrite bool_decide_eq_true_2 by auto.
Qed.

(** The numeral of such a label is not the label. *)
Lemma sub_roman_label_changed digits rest :
  digits ≠ EmptyString → string_forall Py.is_digit_1_9 digits = true →
  rest = EmptyString ∨ rest = Py.newline →
  sub_roman (digits +:+ rest) ≠ digits +:+ rest.
Proof.
  intros Hne Hdigits Hrest. rewrite sub_roman_label by done.
  pose proof (number_to_roman_string_nonempty _
                (int_digits_pos _ Hne Hdigits)) as Hnumeral.
  pose proof (is_fragment_letters _
                (number_to_roman_string_fragment (Py.int digits))) as Hletters.
  destruct (util.number_to_roman_string (Py.int digits)) as [|c numeral];
    [done |].
  destruct digits as [|d digits]; [done |].
  rewrite !append_cons. intros [= -> _].
  unfold letters_only in Hletters. simpl in Hletters, Hdigits.
  apply andb_true_iff in Hletters as [Hletter _].
  apply andb_true_iff in Hdigits as [Hdigit _].
  apply digit_not_letter in Hdigit. congruence.
Qed.

(** ** The written line *)

Lemma append_inj_r_char (s s' : string) c :
  s +:+ String c EmptyString = s' +:+ String c EmptyString → s = s'.
Proof.
  revert s'. induction s as [|d s IH]; intros [|d' s'].
  - done.
  - rewrite append_nil_l, append_cons. intros [= _ H].
    symmetry in H. by apply append_eq_nil in H as [_ ?].
  - rewrite append_nil_l, append_cons. intros [= _ H].
    by apply append_eq_nil in H as [_ ?].
  - rewrite !append_cons. intros [= -> H]. f_equal. by apply IH.
Qed.

(** Where a fragment ends: its closing brace is the first one. *)
Lemma brace_fragment_inj (a a' r r' : string) :
  letters_only a = true → letters_only a' = true →
  brace a +:+ r = brace a' +:+ r' → a = a' ∧ r = r'.
Proof.
  unfold brace. rewrite !append_cons, !append_nil_l, !append_assoc.
  intros Ha Ha' [= H]. revert a' Ha' H.
  induction a as [|c a IH]; intros [|c' a'] Ha' H.
  - rewrite !append_nil_l in H. by injection H.
  - rewrite append_nil_l, !append_cons in H. injection H as <- _.
    by vm_compute in Ha'.
  - rewrite append_nil_l, !append_cons in H. injection H as -> _.
    by vm_compute in Ha.
  - rewrite !append_cons in H. injection H as -> H.
    unfold letters_only in Ha, Ha'. simpl in Ha, Ha'.
    apply andb_true_iff in Ha as [_ Ha]. apply andb_true_iff in Ha' as [_ Ha'].
    destruct (IH Ha a' Ha' H) as [-> ->]. done.
Qed.

(** The line of a command: the control sequence and seven arguments. *)
Lemma to_latex_raw_arguments command :
  to_latex_raw command
  = "\StoreBenchExecResult" +:+ Py.join (brace <$> arguments command).
Proof.
  unfold to_latex_raw, _get_command_formatted, repr, arguments, identifier.
  cbv zeta. rewrite fmap_app, py_join_app. simpl fmap.
  unfold Py.join at 1. simpl foldr. rewrite py_join_singleton.
  rewrite !append_assoc, append_nil_l. do 7 f_equal.
  by destruct (value command) as [[|]|].
Qed.

Lemma set_command_part_identifier command part part_value :
  identifier (set_command_part command part part_value)
  = <[part_index part := format_command_part part_value]> (identifier command).
Proof. by destruct part. Qed.

Lemma set_command_part_value command part part_value :
  value (set_command_part command part part_value) = value command.
Proof. by destruct part. Qed.

Lemma init_well_formed benchmark_name runset_name :
  well_formed (LatexCommand.init benchmark_name runset_name).
Proof.
  unfold well_formed, identifier. simpl.
  repeat constructor; apply format_command_part_fragment.
Qed.

Lemma set_command_part_well_formed command part part_value :
  well_formed command → well_formed (set_command_part command part part_value).
Proof.
  unfold well_formed. rewrite set_command_part_identifier.
  intros H. apply Forall_insert; [done |]. apply format_command_part_fragment.
Qed.

Lemma set_command_value_well_formed command new_value :
  well_formed command → well_formed (set_command_value command new_value).
Proof. done. Qed.

Lemma stat_command_well_formed init_command stat_name :
  well_formed init_command → well_formed (stat_command init_command stat_name).
Proof.
  intros H. unfold stat_command. cbv zeta.
  by do 2 apply set_command_part_well_formed.
Qed.

(** The leaves of a record are well formed and have a value. *)
Lemma record_leaves_well_formed init_command column column_statistic :
  well_formed init_command →
  Forall (λ leaf, well_formed leaf ∧ is_Some (value leaf))
    (record_leaves init_command column column_statistic).
Proof.
  intros Hinit. apply Forall_forall. intros leaf.
  unfold record_leaves. intros (stat & Hleaf & _)%list_elem_of_bind.
  unfold stat_leaves in Hleaf. cbv zeta in Hleaf.
  pose proof (stat_command_well_formed init_command stat.1 Hinit) as Hstat.
  apply elem_of_app in Hleaf as [Hleaf | Hleaf].
  - apply list_elem_of_fmap in Hleaf as (kind & -> & _). split.
    + unfold kind_leaf.
      by apply set_command_value_well_formed, set_command_part_well_formed.
    + by eexists.
  - destruct (Py.truthy _); [| by apply elem_of_nil in Hleaf].
    apply list_elem_of_singleton in Hleaf as ->. split.
    + unfold unit_leaf.
      by apply set_command_value_well_formed, set_command_part_well_formed.
    + by eexists.
Qed.

Lemma Forall_join_imap {A B} (P : B → Prop) (f : nat → A → list B) (l : list A) :
  (∀ i x, l !! i = Some x → Forall P (f i x)) → Forall P (mjoin (imap f l)).
Proof.
  intros H. apply Forall_forall. intros y (i & x & Hi & Hy)%elem_of_join_imap.
  specialize (H i x Hi). rewrite Forall_forall in H. by apply H.
Qed.

Lemma column_loop_well_formed total used current_command pairs :
  well_formed current_command →
  Forall (λ leaf, well_formed leaf ∧ is_Some (value leaf))
    (column_loop total used current_command pairs).1.
Proof.
  intros Hcommand. rewrite column_loop_blocks. cbv zeta. cbn [fst].
  rewrite fst_imap. apply Forall_join_imap. intros j pair _.
  unfold column_loop_block. cbv zeta. cbn [fst].
  rewrite column_statistic_to_latex_command_leaves.
  by apply record_leaves_well_formed, set_command_part_well_formed.
Qed.

Lemma run_set_loop_well_formed formatted_names total used pairs :
  Forall (λ leaf, well_formed leaf ∧ is_Some (value leaf))
    (run_set_loop formatted_names total used pairs).1.
Proof.
  rewrite run_set_loop_blocks. cbv zeta. cbn [fst].
  rewrite fst_imap. apply Forall_join_imap. intros i pair _.
  unfold run_set_loop_block. cbv zeta. cbn [fst].
  apply column_loop_well_formed, init_well_formed.
Qed.

(** ** Counting the commands *)

Lemma length_join_imap {A B} (f : nat → A → list B) (g : A → nat) (l : list A) :
  (∀ i x, l !! i = Some x → length (f i x) = g x) →
  length (mjoin (imap f l)) = sum_list (g <$> l).
Proof.
  revert f. induction l as [|x l IH]; intros f Hf; [done |].
  rewrite imap_cons. cbn [mjoin list_join]. rewrite length_app, fmap_cons.
  simpl sum_list. rewrite (Hf 0 x) by done. f_equal.
  apply IH. intros i y Hi. by apply (Hf (S i)).
Qed.

Lemma stat_leaves_length init_command column stat :
  length (stat_leaves init_command column stat)
  = length (present stat.2) + (if Py.truthy (Column.unit column) then 1 else 0).
Proof.
  unfold stat_leaves. cbv zeta. rewrite length_app, length_fmap.
  by destruct (Py.truthy _).
Qed.

Lemma record_leaves_length init_command column column_statistic :
  length (record_leaves init_command column column_statistic)
  = leaf_count column column_statistic.
Proof.
  unfold record_leaves, leaf_count. rewrite bind_join_imap.
  apply length_join_imap. intros _ stat _. apply stat_leaves_length.
Qed.

Lemma column_loop_length total used current_command pairs :
  length (column_loop total used current_command pairs).1
  = sum_list ((λ column_pair : Column.t * option ColumnStatistics,
                 leaf_count column_pair.1 column_pair.2) <$> pairs).
Proof.
  rewrite column_loop_blocks. cbv zeta. cbn [fst]. rewrite fst_imap.
  apply length_join_imap. intros j pair _.
  unfold column_loop_block. cbv zeta. cbn [fst].
  rewrite column_statistic_to_latex_command_leaves.
  apply record_leaves_length.
Qed.

Lemma generate_length run_sets stats :
  length (generate run_sets stats).1 = command_count run_sets stats.
Proof.
  unfold generate, command_count. cbv zeta.
  rewrite run_set_loop_blocks. cbv zeta. cbn [fst]. rewrite fst_imap.
  apply length_join_imap. intros i pair _.
  unfold run_set_loop_block. cbv zeta. cbn [fst].
  apply column_loop_length.
Qed.

Lemma write_commands_length commands :
  length (write_commands commands) = 2 * length commands.
Proof.
  unfold write_commands. induction commands as [|c commands IH]; [done |].
  rewrite bind_cons, length_app, IH. simpl. lia.
Qed.

(** ** The header *)

Lemma header_not_written commands : TEX_HEADER ∉ write_commands commands.
Proof.
  unfold write_commands. intros (c & Hchunk & _)%list_elem_of_bind.
  apply elem_of_cons in Hchunk as [Hline | Hend].
  - rewrite to_latex_raw_arguments in Hline. discriminate Hline.
  - apply list_elem_of_singleton in Hend. discriminate Hend.
Qed.

(** ** The table of formatted names *)

Lemma collect_formatted_names_lookup_any run_sets run_set :
  run_set ∈ run_sets →
  ∃ run_set', run_set' ∈ run_sets
    ∧ RunSet.id run_set' = RunSet.id run_set
    ∧ collect_formatted_names run_sets !! RunSet.id run_set
      = Some (name_key run_set').
Proof.
  intros Hin. rewrite collect_formatted_names_list.
  destruct (list_to_map (reverse (named <$> run_sets)) !! RunSet.id run_set)
    as [key|] eqn:Hlookup.
  - apply elem_of_list_to_map_2 in Hlookup.
    rewrite elem_of_reverse in Hlookup.
    apply list_elem_of_fmap in Hlookup as (run_set' & Heq & Hin').
    injection Heq as Hid ->. by exists run_set'.
  - apply not_elem_of_list_to_map in Hlookup. exfalso. apply Hlookup.
    rewrite fmap_reverse, elem_of_reverse, named_ids.
    by apply list_elem_of_fmap_2.
Qed.

(** ** Surplus statistics *)

Lemma zip_app_surplus {A B} (l : list A) (k extra : list B) :
  length l ≤ length k → zip l (k ++ extra) = zip l k.
Proof.
  revert k. induction l as [|x l IH]; intros [|y k] Hlen; simpl in *;
    try done; try lia.
  rewrite IH by lia. done.
Qed.

(** ** Warnings *)

Lemma join_nil {A} (ls : list (list A)) : mjoin ls = [] ↔ Forall (λ l, l = []) ls.
Proof.
  induction ls as [|l ls IH]; [by split |].
  change (mjoin (l :: ls)) with (l ++ mjoin ls).
  rewrite Forall_cons, <- IH. split.
  - by intros [-> ->]%app_eq_nil.
  - by intros [-> ->].
Qed.

Lemma join_imap_nil {A B} (f : nat → A → list B) (l : list A) :
  mjoin (imap f l) = [] ↔ ∀ i x, l !! i = Some x → f i x = [].
Proof.
  rewrite join_nil, Forall_lookup. split.
  - intros H i x Hi. apply (H i). by rewrite list_lookup_imap, Hi.
  - intros H i ys. rewrite list_lookup_imap.
    destruct (l !! i) as [x|] eqn:Hi; [| done].
    intros [= <-]. by apply H.
Qed.

Lemma resolver_suffix_None_iff `{EqDecision K} (keys : list K) i k :
  keys !! i = Some k →
  resolver_suffix keys i k = None ↔ occurrences k keys = 1.
Proof.
  intros Hi.
  pose proof (occurrence_index_pos keys i k Hi).
  pose proof (occurrence_index_le keys i k).
  unfold resolver_suffix. case_bool_decide; split; try done; lia.
Qed.

Lemma suffix_warning_nil w suffix : suffix_warning w suffix = [] ↔ suffix = None.
Proof. by destruct suffix. Qed.

Lemma column_blocks_silent titles current_command pairs :
  (∀ j pair, pairs !! j = Some pair →
     titles !! j = Some (select_column_name pair.1)) →
  mjoin (imap (column_block titles current_command) pairs).*2 = []
  ↔ Forall (λ pair : Column.t * option ColumnStatistics,
              occurrences (select_column_name pair.1) titles = 1) pairs.
Proof.
  intros Htitles. rewrite snd_imap, join_imap_nil, Forall_lookup.
  apply forall_proper. intros j. apply forall_proper. intros pair.
  split; intros H Hj; specialize (H Hj); pose proof (Htitles j pair Hj);
    unfold column_block in *; cbn [snd] in *;
    rewrite suffix_warning_nil, resolver_suffix_None_iff in *; done.
Qed.

(** Distinct run sets: nothing is logged exactly when every key walked
    occurs once. *)
Lemma generate_silent run_sets stats :
  NoDup (RunSet.id <$> run_sets) →
  (generate run_sets stats).2 = [] ↔ keys_unique run_sets stats.
Proof.
  intros Hids. rewrite generate_blocks by done. cbv zeta. cbn [snd].
  rewrite snd_imap, join_imap_nil. unfold keys_unique.
  rewrite Forall_lookup.
  apply forall_proper. intros i. apply forall_proper. intros pair.
  assert (∀ Hi : zip run_sets stats !! i = Some pair,
            (run_set_block (name_keys run_sets) i pair).2 = []
            ↔ occurrences (name_key pair.1) (name_keys run_sets) = 1
              ∧ Forall
                  (λ column_pair : Column.t * option ColumnStatistics,
                     occurrences (select_column_name column_pair.1)
                       (column_titles pair.1) = 1)
                  (zip (RunSet.columns pair.1) pair.2)) as Hblock.
  { intros Hi. unfold run_set_block. cbv zeta. cbn [snd].
    rewrite <- (column_blocks_silent (column_titles pair.1)
                  (LatexCommand.init
                     (add_suffix (name_key pair.1).1
                        (resolver_suffix (name_keys run_sets) i (name_key pair.1)))
                     (name_key pair.1).2)).
    - rewrite <- (resolver_suffix_None_iff (name_keys run_sets) i)
        by by eapply zip_lookup_name_key.
      rewrite <- (suffix_warning_nil
                    (DuplicatedNames ((name_key pair.1).1 +:+ (name_key pair.1).2))).
      split; [by intros [-> ->]%app_eq_nil | by intros [-> ->]].
    - intros j column_pair Hj.
      by apply (zip_lookup_fst select_column_name _ _ _ _ Hj). }
  split; intros H Hi; apply Hblock; auto.
Qed.

(** ** Appending a run set *)

Lemma occurrences_snoc_fresh `{EqDecision K} (keys : list K) k k' :
  k ≠ k' → occurrences k (keys ++ [k']) = occurrences k keys.
Proof.
  intros Hne. rewrite occurrences_app, occurrences_cons, occurrences_nil.
  rewrite decide_False by done. lia.
Qed.

Lemma resolver_suffix_snoc_other `{EqDecision K} (keys : list K) i k k' :
  i < length keys → k ≠ k' →
  resolver_suffix (keys ++ [k']) i k = resolver_suffix keys i k.
Proof.
  intros Hi Hne. unfold resolver_suffix, occurrence_index.
  rewrite occurrences_snoc_fresh by done.
  by rewrite take_app_le by lia.
Qed.

Lemma resolver_suffix_snoc_fresh `{EqDecision K} (keys : list K) k :
  k ∉ keys → resolver_suffix (keys ++ [k]) (length keys) k = None.
Proof.
  intros Hfresh. unfold resolver_suffix.
  rewrite occurrences_app, occurrences_cons, occurrences_nil.
  rewrite decide_True by done.
  assert (occurrences k keys = 0) as ->.
  { unfold occurrences. destruct (filter _ keys) as [|x l] eqn:Hf; [done |].
    assert (x ∈ filter (λ x, x = k) keys) as Hx by (rewrite Hf; left).
    apply list_elem_of_filter in Hx as [-> Hx]. done. }
  by rewrite bool_decide_eq_false_2 by lia.
Qed.

Lemma run_set_block_provide keys i pair :
  run_set_block keys i pair
  = let key := name_key pair.1 in
    let suffix := resolver_suffix keys i key in
    let provided :=
      _provide_latex_commands pair.1 pair.2
        (LatexCommand.init (add_suffix key.1 suffix) key.2) in
    (provided.1,
     suffix_warning (DuplicatedNames (key.1 +:+ key.2)) suffix ++ provided.2).
Proof.
  unfold run_set_block. cbv zeta. by rewrite provide_latex_commands_blocks.
Qed.

Lemma name_keys_app run_sets run_sets' :
  name_keys (run_sets ++ run_sets') = name_keys run_sets ++ name_keys run_sets'.
Proof. unfold name_keys. apply fmap_app. Qed.

Lemma fst_join_app {A B} (l1 l2 : list (list A * list B)) :
  (mjoin (l1 ++ l2).*1, mjoin (l1 ++ l2).*2)
  = (mjoin l1.*1 ++ mjoin l2.*1, mjoin l1.*2 ++ mjoin l2.*2).
Proof. by rewrite !fmap_app, !join_app. Qed.

(** A run set with a key of its own, appended with its statistics, leaves
    what was written before as it was and adds its commands under its
    plain names. *)
Lemma generate_snoc_fresh run_sets run_set stats stat_list :
  NoDup (RunSet.id <$> run_sets ++ [run_set]) →
  length stats = length run_sets →
  name_key run_set ∉ name_keys run_sets →
  generate (run_sets ++ [run_set]) (stats ++ [stat_list])
  = let provided :=
      _provide_latex_commands run_set stat_list
        (LatexCommand.init (name_key run_set).1 (name_key run_set).2) in
    ((generate run_sets stats).1 ++ provided.1,
     (generate run_sets stats).2 ++ provided.2).
Proof.
  intros Hids Hlen Hfresh.
  assert (NoDup (RunSet.id <$> run_sets)) as Hids'.
  { rewrite fmap_app in Hids. by apply NoDup_app in Hids as [? _]. }
  rewrite !generate_blocks by done. cbv zeta.
  rewrite zip_with_app by done. rewrite imap_app, fst_join_app.
  rewrite name_keys_app.
  change (name_keys [run_set]) with [name_key run_set].
  assert (imap (run_set_block (name_keys run_sets ++ [name_key run_set]))
            (zip run_sets stats)
          = imap (run_set_block (name_keys run_sets)) (zip run_sets stats)) as ->.
  { apply imap_ext. intros i pair Hi.
    pose proof (zip_lookup_name_key _ _ _ _ Hi) as Hkey.
    rewrite !run_set_block_provide. cbv zeta.
    rewrite resolver_suffix_snoc_other; [done | |].
    - by apply lookup_lt_Some in Hkey.
    - intros Heq. apply Hfresh. rewrite <- Heq.
      by apply list_elem_of_lookup_2 in Hkey. }
  change (zip [run_set] [stat_list]) with [(run_set, stat_list)].
  rewrite !imap_cons, !imap_nil. cbn [fmap list_fmap mjoin list_join fst snd].
  rewrite !app_nil_r.
  rewrite run_set_block_provide. cbv zeta. cbn [fst snd].
  rewrite Nat.add_0_r, length_zip, Hlen, Nat.min_id.
  replace (length run_sets) with (length (name_keys run_sets))
    by (unfold name_keys; apply length_fmap).
  by rewrite resolver_suffix_snoc_fresh.
Qed.

Lemma occurrences_one_index `{EqDecision K} (keys : list K) i k :
  keys !! i = Some k → occurrences k keys = 1 → occurrence_index keys i k = 1.
Proof.
  intros Hi Hone.
  pose proof (occurrence_index_pos keys i k Hi).
  pose proof (occurrence_index_le keys i k). lia.
Qed.

(** A later run set with the same names renames an earlier one. *)
Lemma resolver_suffix_snoc_same `{EqDecision K} (keys : list K) i k :
  keys !! i = Some k → occurrences k keys = 1 →
  resolver_suffix keys i k = None
  ∧ resolver_suffix (keys ++ [k]) i k
    = Some (util.number_to_roman_string 1).
Proof.
  intros Hi Hone. split.
  - unfold resolver_suffix. by rewrite bool_decide_eq_false_2 by lia.
  - unfold resolver_suffix, occurrence_index.
    rewrite occurrences_app, occurrences_cons, occurrences_nil.
    rewrite decide_True, bool_decide_eq_true_2 by (done || lia).
    rewrite take_app_le by (apply lookup_lt_Some in Hi; lia).
    fold (occurrence_index keys i k).
    by rewrite (occurrences_one_index keys i k Hi Hone).
Qed.

(** ** The further properties *)

(** X1. The sanitizer always returns letters only, the first of them a
    capital, and it leaves its own results as they are. *)
Theorem X1_sanitizer_fragments name :
  letters_only (format_command_part name) = true
  ∧ is_fragment (format_command_part name) = true
  ∧ format_command_part (format_command_part name) = format_command_part name.
Proof.
  split_and!.
  - apply is_fragment_letters, format_command_part_fragment.
  - apply format_command_part_fragment.
  - apply format_command_part_idemp.
Qed.

(** X2. Whatever the input, the generator keeps what the sink held, writes
    the header next and then the two chunks of each command; the header is
    none of these chunks, so it is written once. Without run sets it writes
    the header alone and logs nothing. *)
Theorem X2_header out run_sets stats :
  (write_tex_command_table out run_sets stats).1
  = out ++ (TEX_HEADER :: write_commands (generate run_sets stats).1)
  ∧ (TEX_HEADER ∉ write_commands (generate run_sets stats).1)
  ∧ write_tex_command_table out [] stats = (out ++ [TEX_HEADER], []).
Proof.
  split_and!.
  - unfold write_tex_command_table. by destruct (generate run_sets stats).
  - apply header_not_written.
  - done.
Qed.

(** X4. The walker yields, for a record, one leaf per present kind of every
    present statistic and one more per present statistic when the column
    has a non-empty unit; for an absent record it yields nothing. *)
Theorem X4_leaf_count init_command column column_statistic :
  length (_column_statistic_to_latex_command init_command column_statistic column)
  = leaf_count column column_statistic
  ∧ _column_statistic_to_latex_command init_command None column = [].
Proof.
  split; [| done].
  rewrite column_statistic_to_latex_command_leaves.
  apply record_leaves_length.
Qed.

(** X5. A label of digits 1-9 that ends with one line feed is replaced by
    its numeral as the label without the line feed is: the end of the
    pattern also matches before a final line feed. *)
Theorem X5_final_line_feed digits :
  digits ≠ EmptyString → string_forall Py.is_digit_1_9 digits = true →
  sub_roman (digits +:+ Py.newline)
  = util.number_to_roman_string (Py.int digits) +:+ Py.newline
  ∧ format_command_part (digits +:+ Py.newline)
    = util.number_to_roman_string (Py.int digits)
  ∧ format_command_part (digits +:+ Py.newline) = format_command_part digits.
Proof.
  intros Hne Hdigits.
  assert (sub_roman (digits +:+ Py.newline)
          = util.number_to_roman_string (Py.int digits) +:+ Py.newline) as Hsub.
  { unfold sub_roman. rewrite span_1_9_rest_app by done.
    rewrite (span_1_9_digits _ Hdigits). cbn [fst snd].
    rewrite append_nil_l. by rewrite bool_decide_eq_true_2 by auto. }
  assert (format_command_part (digits +:+ Py.newline)
          = util.number_to_roman_string (Py.int digits)) as Hformat.
  { rewrite format_command_part_extract, Hsub.
    unfold Py.newline. rewrite extract_letters_app_sep by done.
    change (extract_letters EmptyString) with EmptyString.
    rewrite append_nil_r.
    apply extract_letters_of_fragment, number_to_roman_string_fragment. }
  split_and!; [done | done |].
  rewrite Hformat. symmetry.
  rewrite format_command_part_extract, sub_roman_digits by done.
  apply extract_letters_of_fragment, number_to_roman_string_fragment.
Qed.

(** The label "7" followed by a line feed. *)
Lemma X5_final_line_feed_witness :
  format_command_part ("7" +:+ Py.newline) = "VII".
Proof.
  change "VII" with (util.number_to_roman_string (Py.int "7")).
  apply (X5_final_line_feed "7"); [discriminate | reflexivity].
Defined.

(** X6. The subcategory of a statistic name is the sanitized part after its
    last underscore and the category comes from the parts before it, each
    capitalised; a name without an underscore is its own category and has
    the empty subcategory. *)
Theorem X6_categories stat_name before after :
  string_forall (λ c, negb (bool_decide (c = "_"%char))) stat_name = true →
  string_forall (λ c, negb (bool_decide (c = "_"%char))) after = true →
  stat_fragments stat_name = (format_command_part stat_name, EmptyString)
  ∧ stat_fragments (before +:+ String "_" after)
    = (format_command_part
         (Py.join (util.cap_first_letter
                   <$> Py.split_on (λ c, bool_decide (c = "_"%char)) before)),
       format_command_part after).
Proof.
  intros Hname Hafter. unfold stat_fragments, stat_command. cbv zeta. split.
  - rewrite (split_on_no_sep _ _ Hname). simpl.
    rewrite append_nil_r. f_equal. apply format_command_part_cap.
  - rewrite split_on_app_sep by done.
    rewrite (split_on_no_sep _ _ Hafter).
    destruct (split_on_snoc (λ c, bool_decide (c = "_"%char)) before)
      as (ws & w & Hsplit).
    rewrite Hsplit, bool_decide_eq_false_2
      by (rewrite !length_app; simpl; lia).
    by rewrite removelast_last, last_snoc.
Qed.

(** The names "total" and "correct_unconfirmed_false". *)
Lemma X6_categories_witness :
  stat_fragments "total" = ("Total", EmptyString)
  ∧ stat_fragments "correct_unconfirmed_false" = ("CorrectUnconfirmed", "False").
Proof.
  pose proof (X6_categories "total" "correct_unconfirmed" "false"
                eq_refl eq_refl) as [Hplain Hsplit].
  split.
  - rewrite Hplain. by vm_compute.
  - change "correct_unconfirmed_false"
      with ("correct_unconfirmed" +:+ String "_" "false").
    rewrite Hsplit. by vm_compute.
Defined.

(** X7. The number of commands written is the number of leaves of the
    paired records, whatever the names and their collisions; the sink grows
    by the header and two chunks per command. *)
Theorem X7_command_count out run_sets stats :
  length (generate run_sets stats).1 = command_count run_sets stats
  ∧ length (write_tex_command_table out run_sets stats).1
    = length out + 1 + 2 * command_count run_sets stats.
Proof.
  pose proof (generate_length run_sets stats) as Hcount.
  split; [done |].
  unfold write_tex_command_table.
  destruct (generate run_sets stats) as [commands logged]. cbn [fst] in *.
  rewrite length_app. cbn [length]. rewrite write_commands_length, Hcount. lia.
Qed.

(** X8. A character that is no letter separates: the letters extracted from
    a label are those of what stands before the character followed by those
    of what stands after it. When the character is no digit 1-9 either and
    no final line feed, the sanitizer gives just that. *)
Theorem X8_delimiters_separate s c t :
  Py.is_ascii_letter c = false →
  extract_letters (s +:+ String c t) = extract_letters s +:+ extract_letters t
  ∧ (Py.is_digit_1_9 c = false → String c t ≠ Py.newline →
     format_command_part (s +:+ String c t)
     = extract_letters s +:+ extract_letters t).
Proof.
  intros Hletter.
  pose proof (extract_letters_app_sep s c t Hletter) as Happ.
  split; [done |]. intros Hdigit Hnl.
  by rewrite format_command_part_extract, sub_roman_other.
Qed.

(** The labels "cpu2time", where a digit separates, and "cpu time (s)". *)
Lemma X8_delimiters_separate_witness :
  extract_letters "cpu2time" = "CpuTime"
  ∧ format_command_part "cpu time (s)" = "CpuTimeS".
Proof.
  split.
  - change (extract_letters ("cpu" +:+ String "2" "time")
            = extract_letters "cpu" +:+ extract_letters "time").
    apply (proj1 (X8_delimiters_separate "cpu" "2" "time" eq_refl)).
  - change (format_command_part ("cpu" +:+ String " " "time (s)")
            = extract_letters "cpu" +:+ extract_letters "time (s)").
    apply (proj2 (X8_delimiters_separate "cpu" " " "time (s)" eq_refl));
      [reflexivity | discriminate].
Defined.

(** X9. Letter extraction keeps the letters of the label, all of them and
    in their order, and changes at most their case; so does the sanitizer
    on the label after the numeral substitution. *)
Theorem X9_letters_kept name :
  string_map to_lower (extract_letters name)
  = string_map to_lower (string_filter Py.is_ascii_letter name)
  ∧ string_map to_lower (format_command_part name)
    = string_map to_lower (string_filter Py.is_ascii_letter (sub_roman name)).
Proof.
  split; [apply extract_letters_lower |].
  rewrite format_command_part_extract. apply extract_letters_lower.
Qed.

(** X10. The numeral substitution changes a label exactly when the label
    is made of one or more digits 1-9, followed by nothing or by one line
    feed; it then replaces the digits by the numeral of the number they
    write and keeps the line feed. Every other label is left as it is. *)
Theorem X10_substituted_labels name :
  (sub_roman name ≠ name
   ↔ ∃ digits rest,
       name = digits +:+ rest
       ∧ digits ≠ EmptyString
       ∧ string_forall Py.is_digit_1_9 digits = true
       ∧ (rest = EmptyString ∨ rest = Py.newline))
  ∧ (∀ digits rest,
       name = digits +:+ rest → digits ≠ EmptyString →
       string_forall Py.is_digit_1_9 digits = true →
       rest = EmptyString ∨ rest = Py.newline →
       sub_roman name = util.number_to_roman_string (Py.int digits) +:+ rest).
Proof.
  split; [split |].
  - intros Hchanged. unfold sub_roman in Hchanged.
    pose proof (span_1_9_app name) as Happ.
    pose proof (span_1_9_digits_all name) as Hdigits.
    destruct (span_1_9 name) as [digits rest]. cbn [fst snd] in *.
    case_bool_decide as Hmatch; [| done].
    exists digits, rest. destruct Hmatch as [Hne Hrest]. done.
  - intros (digits & rest & -> & Hne & Hdigits & Hrest).
    by apply sub_roman_label_changed.
  - intros digits rest -> Hne Hdigits Hrest. by apply sub_roman_label.
Qed.

(** X11. Every command the generator writes, for whatever input, has six
    parts that are fragments of letters, the first of them a capital, and a
    value that is set. *)
Theorem X11_commands_well_formed run_sets stats :
  Forall (λ leaf, well_formed leaf ∧ is_Some (value leaf))
    (generate run_sets stats).1.
Proof. unfold generate. cbv zeta. apply run_set_loop_well_formed. Qed.

(** X12. The line tells the command: two commands whose parts are fragments
    and whose lines are equal have the same six fragments and the same
    written value. *)
Theorem X12_lines_tell_commands command command' :
  well_formed command → well_formed command' →
  to_latex_raw command = to_latex_raw command' →
  arguments command = arguments command'.
Proof.
  unfold well_formed. intros Hwf Hwf'.
  rewrite !to_latex_raw_arguments. intros Hline%append_inj_l.
  unfold arguments, identifier in *.
  destruct command as [b r t c s k v], command' as [b' r' t' c' s' k' v'].
  cbn [benchmark_name runset_name column_title column_category
       column_subcategory stat_type value] in *.
  repeat match goal with
         | H : Forall _ (_ :: _) |- _ =>
             apply Forall_cons in H as [?%is_fragment_letters H]
         end.
  cbn [fmap list_fmap app] in Hline. unfold Py.join in Hline.
  cbn [foldr] in Hline.
  repeat match type of Hline with
         | brace _ +:+ _ = brace _ +:+ _ =>
             apply brace_fragment_inj in Hline as [-> Hline]; [| done | done]
         end.
  rewrite !append_nil_r in Hline. unfold brace in Hline.
  rewrite !append_cons, !append_nil_l in Hline.
  injection Hline as Hline. apply append_inj_r_char in Hline. by rewrite Hline.
Qed.

(** Two commands that differ in one fragment. *)
Lemma X12_lines_tell_commands_witness :
  arguments (LatexCommand.init "a" "b")
  = arguments (set_command_value (LatexCommand.init "a" "b") None).
Proof.
  apply (X12_lines_tell_commands (LatexCommand.init "a" "b")
           (set_command_value (LatexCommand.init "a" "b") None));
    [apply init_well_formed | apply init_well_formed | reflexivity].
Defined.

(** X13. Two processed run sets, distinct objects with the same sanitized
    names, never write under the same names: the commands of one and those
    of the other differ in the benchmark-name fragment and agree in the
    run-set-name fragment. *)
Theorem X13_same_names_separated run_sets stats i j pair pair' leaf leaf' :
  NoDup (RunSet.id <$> run_sets) → i ≠ j →
  zip run_sets stats !! i = Some pair → zip run_sets stats !! j = Some pair' →
  name_key pair.1 = name_key pair'.1 →
  leaf ∈ (run_set_block (name_keys run_sets) i pair).1 →
  leaf' ∈ (run_set_block (name_keys run_sets) j pair').1 →
  leaf ∈ (generate run_sets stats).1
  ∧ leaf' ∈ (generate run_sets stats).1
  ∧ benchmark_name leaf ≠ benchmark_name leaf'
  ∧ runset_name leaf = runset_name leaf'.
Proof.
  intros Hids Hij Hi Hj Hsame Hleaf Hleaf'.
  pose proof (zip_lookup_name_key _ _ _ _ Hi) as Hkey.
  pose proof (zip_lookup_name_key _ _ _ _ Hj) as Hkey'.
  split_and!.
  - apply generate_commands; eauto.
  - apply generate_commands; eauto.
  - apply run_set_block_commands in Hleaf as [Hn _]; [| done].
    apply run_set_block_commands in Hleaf' as [Hn' _]; [| done].
    rewrite <- Hsame in Hn', Hkey'.
    destruct (resolver_suffix_apart _ i j _ Hij Hkey Hkey')
      as (s & s' & Hs & Hs' & Hss).
    unfold resolved_names in Hn, Hn'. rewrite Hs in Hn. rewrite Hs' in Hn'.
    apply (f_equal fst) in Hn, Hn'. cbn [fst add_suffix] in Hn, Hn'.
    rewrite Hn, Hn'. by intros ?%append_inj_l.
  - apply run_set_block_commands in Hleaf as [Hn _]; [| done].
    apply run_set_block_commands in Hleaf' as [Hn' _]; [| done].
    rewrite <- Hsame in Hn'.
    apply (f_equal snd) in Hn, Hn'. unfold resolved_names in Hn, Hn'.
    cbn [snd] in Hn, Hn'. by rewrite Hn, Hn'.
Qed.

(** The two run sets named alike. *)
Lemma X13_same_names_separated_witness :
  sample2.leaf "AI" "R" "X" ∈ (generate sample.twins sample.twin_stats).1
  ∧ sample2.leaf "AII" "R" "X" ∈ (generate sample.twins sample.twin_stats).1
  ∧ benchmark_name (sample2.leaf "AI" "R" "X")
    ≠ benchmark_name (sample2.leaf "AII" "R" "X")
  ∧ runset_name (sample2.leaf "AI" "R" "X")
    = runset_name (sample2.leaf "AII" "R" "X").
Proof.
  apply (X13_same_names_separated sample.twins sample.twin_stats 0 1
           (sample2.single, [Some sample.small_record])
           (sample.run_set 1 "a" "r" [sample.column "x" None],
            [Some sample.small_record]));
    try reflexivity; try lia.
  - apply (bool_decide_unpack _). by vm_compute.
  - vm_compute. apply list_elem_of_here.
  - vm_compute. apply list_elem_of_here.
Defined.

(** X14. Two processed columns of a run set with the same selected title
    never write under the same column title: sanitizing after the suffix
    keeps the numerals apart. *)
Theorem X14_same_titles_separated run_set stat_list current_command j j'
    column_pair column_pair' leaf leaf' :
  j ≠ j' →
  zip (RunSet.columns run_set) stat_list !! j = Some column_pair →
  zip (RunSet.columns run_set) stat_list !! j' = Some column_pair' →
  select_column_name column_pair.1 = select_column_name column_pair'.1 →
  leaf ∈ (column_block (column_titles run_set) current_command j column_pair).1 →
  leaf' ∈ (column_block (column_titles run_set) current_command j' column_pair').1 →
  leaf ∈ (_provide_latex_commands run_set stat_list current_command).1
  ∧ leaf' ∈ (_provide_latex_commands run_set stat_list current_command).1
  ∧ column_title leaf ≠ column_title leaf'.
Proof.
  intros Hjj Hj Hj' Hsame Hleaf Hleaf'.
  pose proof (zip_lookup_fst select_column_name _ _ _ _ Hj) as Htitle.
  pose proof (zip_lookup_fst select_column_name _ _ _ _ Hj') as Htitle'.
  rewrite provide_latex_commands_blocks. cbv zeta. cbn [fst].
  rewrite fst_imap. split_and!.
  - apply elem_of_join_imap. eauto.
  - apply elem_of_join_imap. eauto.
  - apply (proj2 (column_block_commands _ _ _ _ Htitle)) in Hleaf
      as (_ & _ & ->).
    apply (proj2 (column_block_commands _ _ _ _ Htitle')) in Hleaf'
      as (_ & _ & ->).
    rewrite <- Hsame in *.
    destruct (resolver_suffix_apart _ j j' _ Hjj Htitle Htitle')
      as (s & s' & Hs & Hs' & Hss).
    unfold resolved_column_title.
    change (select_column_name <$> RunSet.columns run_set)
      with (column_titles run_set) in *.
    rewrite Hs, Hs'. by intros ?%append_inj_l.
Qed.

(** Two columns titled "x". *)
Lemma X14_same_titles_separated_witness :
  sample2.leaf "Bench" "Tool" "XI"
  ∈ (_provide_latex_commands sample2.two_columns sample2.two_records
       sample.command).1
  ∧ sample2.leaf "Bench" "Tool" "XII"
    ∈ (_provide_latex_commands sample2.two_columns sample2.two_records
         sample.command).1
  ∧ column_title (sample2.leaf "Bench" "Tool" "XI")
    ≠ column_title (sample2.leaf "Bench" "Tool" "XII").
Proof.
  apply (X14_same_titles_separated sample2.two_columns sample2.two_records
           sample.command 0 1
           (sample.column "x" None, Some sample.small_record)
           (sample.column "x" None, Some sample.small_record));
    try reflexivity; try lia.
  - vm_compute. apply list_elem_of_here.
  - vm_compute. apply list_elem_of_here.
Defined.

(** X15. For distinct run sets the generator logs nothing exactly when the
    key of every processed run set occurs once among the run sets and the
    selected title of every processed column occurs once among the columns
    of its run set. *)
Theorem X15_silent_iff_unique run_sets stats :
  NoDup (RunSet.id <$> run_sets) →
  (generate run_sets stats).2 = [] ↔ keys_unique run_sets stats.
Proof. apply generate_silent. Qed.

(** A run set whose two titles differ. *)
Lemma X15_silent_iff_unique_witness :
  (generate [sample.alike] sample.alike_stats).2 = []
  ↔ keys_unique [sample.alike] sample.alike_stats.
Proof.
  apply (X15_silent_iff_unique [sample.alike] sample.alike_stats).
  apply (bool_decide_unpack _). by vm_compute.
Defined.

(** X16. A run set with a key of its own, appended together with its
    statistics, leaves the commands and warnings so far as they were and
    adds its own, under its sanitized names without a suffix. *)
Theorem X16_fresh_run_set_appended run_sets run_set stats stat_list :
  NoDup (RunSet.id <$> run_sets ++ [run_set]) →
  length stats = length run_sets →
  name_key run_set ∉ name_keys run_sets →
  generate (run_sets ++ [run_set]) (stats ++ [stat_list])
  = ((generate run_sets stats).1
     ++ (_provide_latex_commands run_set stat_list
           (LatexCommand.init (name_key run_set).1 (name_key run_set).2)).1,
     (generate run_sets stats).2
     ++ (_provide_latex_commands run_set stat_list
           (LatexCommand.init (name_key run_set).1 (name_key run_set).2)).2).
Proof. apply generate_snoc_fresh. Qed.

(** A run set named (b, r) after one named (a, r). *)
Lemma X16_fresh_run_set_appended_witness :
  names_of
  <$> (generate ([sample2.single] ++ [sample2.other_names])
         ([[Some sample.small_record]] ++ [[Some sample.small_record]])).1
  = [("A", "R"); ("B", "R")].
Proof.
  rewrite (X16_fresh_run_set_appended [sample2.single] sample2.other_names
             [[Some sample.small_record]] [Some sample.small_record]).
  - by vm_compute.
  - apply (bool_decide_unpack _). by vm_compute.
  - reflexivity.
  - apply (bool_decide_unpack _). by vm_compute.
Defined.

(** X17. A run set that comes later with the same sanitized names renames
    an earlier one: a run set whose key occurred once wrote under its plain
    names and, once the other is listed, writes under the benchmark name
    with the numeral of 1. *)
Theorem X17_later_duplicate_renames run_sets run_set stats i pair leaf leaf' :
  NoDup (RunSet.id <$> run_sets ++ [run_set]) →
  zip run_sets stats !! i = Some pair →
  name_key pair.1 = name_key run_set →
  occurrences (name_key run_set) (name_keys run_sets) = 1 →
  leaf ∈ (run_set_block (name_keys run_sets) i pair).1 →
  leaf' ∈ (run_set_block (name_keys (run_sets ++ [run_set])) i pair).1 →
  leaf ∈ (generate run_sets stats).1
  ∧ leaf' ∈ (generate (run_sets ++ [run_set]) stats).1
  ∧ names_of leaf = name_key pair.1
  ∧ names_of leaf'
    = ((name_key pair.1).1 +:+ util.number_to_roman_string 1,
       (name_key pair.1).2).
Proof.
  intros Hids Hi Hsame Hone Hleaf Hleaf'.
  assert (NoDup (RunSet.id <$> run_sets)) as Hids'.
  { rewrite fmap_app in Hids. by apply NoDup_app in Hids as [? _]. }
  pose proof (zip_lookup_name_key _ _ _ _ Hi) as Hkey.
  assert (zip (run_sets ++ [run_set]) stats !! i = Some pair) as Hi'.
  { apply lookup_zip_with_Some in Hi as (x & y & -> & Hx & Hy).
    apply lookup_zip_with_Some. exists x, y.
    split_and!; [done | | done]. by apply lookup_app_l_Some. }
  pose proof (zip_lookup_name_key _ _ _ _ Hi') as Hkey'.
  rewrite <- Hsame in Hone.
  destruct (resolver_suffix_snoc_same _ i _ Hkey Hone) as [Hnone Hsome].
  split_and!.
  - apply generate_commands; eauto.
  - apply generate_commands; eauto.
  - apply run_set_block_commands in Hleaf as [Hnames _]; [| done].
    unfold names_of. rewrite Hnames. unfold resolved_names. rewrite Hnone.
    by destruct (name_key pair.1).
  - apply run_set_block_commands in Hleaf' as [Hnames _]; [| done].
    unfold names_of. rewrite Hnames. unfold resolved_names.
    rewrite name_keys_app.
    change (name_keys [run_set]) with [name_key run_set].
    by rewrite <- Hsame, Hsome.
Qed.

(** A run set named (a, r), alone and followed by another named alike. *)
Lemma X17_later_duplicate_renames_witness :
  sample2.leaf "A" "R" "X"
  ∈ (generate [sample2.single] [[Some sample.small_record]]).1
  ∧ sample2.leaf "AI" "R" "X"
    ∈ (generate ([sample2.single] ++ [sample2.same_names])
         [[Some sample.small_record]]).1
  ∧ names_of (sample2.leaf "A" "R" "X") = ("A", "R")
  ∧ names_of (sample2.leaf "AI" "R" "X")
    = ("A" +:+ util.number_to_roman_string 1, "R").
Proof.
  apply (X17_later_duplicate_renames [sample2.single] sample2.same_names
           [[Some sample.small_record]] 0
           (sample2.single, [Some sample.small_record])).
  - apply (bool_decide_unpack _). by vm_compute.
  - reflexivity.
  - reflexivity.
  - by vm_compute.
  - vm_compute. apply list_elem_of_here.
  - vm_compute. apply list_elem_of_here.
Defined.

(** X18. For any list of run sets the total of a key counts the objects
    that carry it and the running index counts the listings: the output is
    the blocks of the listings under these suffixes. So a run set that the
    list names more than once, as one object, and whose names no other
    object has, gets no suffix and no warning about its names at any of its
    listings; and for distinct run sets the blocks are those of the resolver
    of the specification. *)
Theorem X18_objects_counted_once run_sets stats :
  generate run_sets stats
  = (let blocks := imap (object_block run_sets) (zip run_sets stats) in
     (mjoin blocks.*1, mjoin blocks.*2))
  ∧ (∀ i run_set stat_list,
       zip run_sets stats !! i = Some (run_set, stat_list) →
       (∀ x, x ∈ run_sets → RunSet.id x = RunSet.id run_set →
             name_key x = name_key run_set) →
       (∀ x, x ∈ run_sets → name_key x = name_key run_set →
             RunSet.id x = RunSet.id run_set) →
       object_block run_sets i (run_set, stat_list)
       = _provide_latex_commands run_set stat_list
           (LatexCommand.init (name_key run_set).1 (name_key run_set).2))
  ∧ (∀ i pair,
       NoDup (RunSet.id <$> run_sets) → zip run_sets stats !! i = Some pair →
       object_block run_sets i pair = run_set_block (name_keys run_sets) i pair).
Proof.
  split_and!.
  - apply generate_object_blocks.
  - intros i run_set stat_list Hi Hnames Hobject.
    assert (run_set ∈ run_sets) as Hin.
    { apply lookup_zip_with_Some in Hi as (x & y & [= <- <-] & Hx & _).
      by eapply list_elem_of_lookup_2. }
    unfold object_block. cbv zeta. cbn [fst snd].
    rewrite object_key_own by done.
    pose proof (occurrences_one_object run_sets run_set Hobject) as Hone.
    unfold object_suffix. rewrite bool_decide_eq_false_2 by lia.
    cbn [add_suffix suffix_warning app].
    by rewrite provide_latex_commands_blocks.
  - intros i pair Hids Hi. by eapply object_block_distinct.
Qed.

(** A run set listed twice, as one object, around a run set of other
    names. *)
Lemma X18_objects_counted_once_witness :
  names_of <$> (generate sample3.listed_around sample3.three_stats).1
  = [("A", "R"); ("B", "R"); ("A", "R")]
  ∧ (generate sample3.listed_around sample3.three_stats).2 = [].
Proof.
  rewrite (proj1 (X18_objects_counted_once sample3.listed_around
                    sample3.three_stats)).
  split; by vm_compute.
Defined.

(** X19. The table of formatted names has an entry for every run set of the
    list: looking up a run set of the list finds the formatted names of a
    run set of the list with that identity. *)
Theorem X19_formatted_names_found run_sets run_set :
  run_set ∈ run_sets →
  ∃ run_set', run_set' ∈ run_sets
    ∧ RunSet.id run_set' = RunSet.id run_set
    ∧ collect_formatted_names run_sets !! RunSet.id run_set
      = Some (format_command_part (RunSet.benchmarkname run_set'),
              format_command_part (RunSet.niceName run_set')).
Proof. apply collect_formatted_names_lookup_any. Qed.

(** The second of two run sets. *)
Lemma X19_formatted_names_found_witness :
  ∃ run_set', run_set' ∈ sample.twins
    ∧ RunSet.id run_set' = 1
    ∧ collect_formatted_names sample.twins !! 1
      = Some (format_command_part (RunSet.benchmarkname run_set'),
              format_command_part (RunSet.niceName run_set')).
Proof.
  apply (X19_formatted_names_found sample.twins
           (sample.run_set 1 "a" "r" [sample.column "x" None])).
  apply list_elem_of_further, list_elem_of_here.
Defined.

(** X20. Statistics beyond the run sets and records beyond the columns of
    a run set are ignored. *)
Theorem X20_surplus_statistics run_sets stats more_stats run_set stat_list
    more_records current_command :
  length run_sets ≤ length stats →
  length (RunSet.columns run_set) ≤ length stat_list →
  generate run_sets (stats ++ more_stats) = generate run_sets stats
  ∧ _provide_latex_commands run_set (stat_list ++ more_records) current_command
    = _provide_latex_commands run_set stat_list current_command.
Proof.
  intros Hsets Hcolumns. split.
  - unfold generate. by rewrite zip_app_surplus.
  - unfold _provide_latex_commands. by rewrite zip_app_surplus.
Qed.

(** One run set with statistics for two, one column with records for two. *)
Lemma X20_surplus_statistics_witness :
  generate [sample2.single] ([[Some sample.small_record]] ++ [[Some sample.record]])
  = generate [sample2.single] [[Some sample.small_record]]
  ∧ _provide_latex_commands sample2.single
      ([Some sample.small_record] ++ [Some sample.record]) sample.command
    = _provide_latex_commands sample2.single [Some sample.small_record]
        sample.command.
Proof.
  apply (X20_surplus_statistics [sample2.single] [[Some sample.small_record]]
           [[Some sample.record]] sample2.single [Some sample.small_record]
           [Some sample.record] sample.command); simpl; lia.
Defined.

(** X21. The name of the macro is the six fragments in a row, and the row
    does not tell where one fragment ends: for labels that are no digits, a
    word moved from the end of the benchmark name to the start of the
    run-set name gives another identifier and the same macro name. *)
Theorem X21_boundaries_lost u v w :
  sub_roman u = u → sub_roman w = w → extract_letters v ≠ EmptyString →
  identifier (LatexCommand.init (u +:+ String " " v) w)
  ≠ identifier (LatexCommand.init u (v +:+ String " " w))
  ∧ macro_name (LatexCommand.init (u +:+ String " " v) w)
    = macro_name (LatexCommand.init u (v +:+ String " " w)).
Proof.
  intros Hu Hw Hv.
  assert (∀ s t, format_command_part (s +:+ String " " t)
                 = extract_letters s +:+ extract_letters t) as Hsplit.
  { intros s t. by apply format_command_part_space. }
  assert (format_command_part u = extract_letters u) as Hfu
    by (by rewrite format_command_part_extract, Hu).
  assert (format_command_part w = extract_letters w) as Hfw
    by (by rewrite format_command_part_extract, Hw).
  unfold macro_name, identifier.
  cbn [LatexCommand.init benchmark_name runset_name column_title
       column_category column_subcategory stat_type].
  rewrite !Hsplit, Hfu, Hfw. split.
  - intros [= Heq _]. apply Hv.
    rewrite <- (append_nil_r (extract_letters u)) in Heq at 2.
    by apply append_inj_l in Heq.
  - unfold Py.join. cbn [foldr]. by rewrite !append_assoc.
Qed.

(** The names ("a b", "c") and ("a", "b c"). *)
Lemma X21_boundaries_lost_witness :
  identifier (LatexCommand.init "a b" "c") ≠ identifier (LatexCommand.init "a" "b c")
  ∧ macro_name (LatexCommand.init "a b" "c")
    = macro_name (LatexCommand.init "a" "b c").
Proof.
  apply (X21_boundaries_lost "a" "b" "c"); [reflexivity | reflexivity | discriminate].
Defined.
